(** * Items API and media service: access policy and media association

    A shallow embedding of
      - [backend/app/core/media.py]       (class [MediaService]) and
      - [backend/app/api/routes/items.py] (the [/items] route handlers),
    followed by the properties of the item life cycle: who may read, update
    and delete an item, how a listing is scoped, how an upload is validated
    and how its result is recorded on an item.

    Conventions.
      - Python [int] is [Z]; [Optional[T]] is [option T]; [str] is [string];
        the bytes of an upload are [list byte].
      - A handler is a computation in the monad [M]: it threads the [World]
        (database rows, pending session changes, local disk, a counter of
        external events) and either raises an [HTTPException] or returns.
      - What lives outside the repository (libmagic, pathlib, the Cloudinary
        client, the random source, disk faults, the [ItemUpdate] schema) is a
        [Variable] of the section: every result holds for all their
        behaviours. *)

From Stdlib Require Import ZArith List String Ascii Bool Lia DecimalString.
From Stdlib Require Import Strings.Byte.
Import ListNotations.

Local Open Scope Z_scope.
Local Open Scope string_scope.

(* ================================================================= *)
(** ** Python helpers *)

Module Py.

(** [str(n)] for an [int]. *)
Definition str (n : Z) : string := NilZero.string_of_int (Z.to_int n).

(** Truthiness of an [Optional[str]]: [None] and [""] are falsy. *)
Definition truthy_str (s : option string) : bool :=
  match s with
  | None => false
  | Some "" => false
  | Some _ => true
  end.

(** Truthiness of an [Optional[int]]: [None] and [0] are falsy. *)
Definition truthy_int (n : option Z) : bool :=
  match n with
  | None => false
  | Some k => negb (k =? 0)%Z
  end.

(** [sub in s] on strings. *)
Definition contains (sub s : string) : bool :=
  match String.index 0 sub s with
  | Some _ => true
  | None => false
  end.

(** [s.startswith(p)]. *)
Definition startswith (s p : string) : bool := String.prefix p s.

(** [s.lstrip(".")]. *)
Fixpoint lstrip_dot (s : string) : string :=
  match s with
  | String "." rest => lstrip_dot rest
  | _ => s
  end.

(** [v == s] where [v] may be [None]. *)
Definition eq_opt (v : option string) (s : string) : bool :=
  match v with
  | Some x => String.eqb x s
  | None => false
  end.

(** [x in xs] for a list of strings. *)
Definition mem (x : string) (xs : list string) : bool :=
  existsb (String.eqb x) xs.

(** [sep.join(xs)]. *)
Definition join (sep : string) (xs : list string) : string :=
  String.concat sep xs.

End Py.

(* ================================================================= *)
(** ** Data model *)

(** A [uuid.UUID] is its 128-bit integer value. *)
Definition UUID := N.

(** Modelled from the spec: [app.models.Item] is not among the sources. The
    fields are those of the spec's data model (section 3) and those the route
    handlers read and assign. *)
Module Item.
Record t := mk {
  id : UUID;
  owner_id : UUID;
  title : string;
  description : option string;
  media_type : option string;
  image_url : option string;
  video_url : option string
}.

Definition set_image_url (v : option string) (i : t) : t :=
  mk (id i) (owner_id i) (title i) (description i) (media_type i) v (video_url i).
Definition set_video_url (v : option string) (i : t) : t :=
  mk (id i) (owner_id i) (title i) (description i) (media_type i) (image_url i) v.
Definition set_media_type (v : option string) (i : t) : t :=
  mk (id i) (owner_id i) (title i) (description i) v (image_url i) (video_url i).
End Item.

(** Modelled from the spec: the requester ([CurrentUser] of [app.api.deps]). *)
Module User.
Record t := mk {
  id : UUID;
  is_superuser : bool
}.
End User.

(** The response model [ItemsPublic(data=items, count=count)]. *)
Module ItemsPublic.
Record t := mk {
  data : list Item.t;
  count : Z
}.
End ItemsPublic.

(** [fastapi.HTTPException(status_code, detail)]. *)
Module HTTPException.
Record t := mk {
  status_code : Z;
  detail : string
}.
End HTTPException.

(** [fastapi.UploadFile]: the client-supplied [filename], [size] and
    [content_type], and the stream [file] with its read position. *)
Module UploadFile.
Record t := mk {
  filename : option string;
  size : option Z;
  content_type : option string;
  file : list byte;
  pos : nat
}.

(** [file.file.read(n)]: the next [n] bytes and the advanced stream. *)
Definition read (n : nat) (f : t) : list byte * t :=
  let chunk := firstn n (skipn (pos f) (file f)) in
  (chunk, mk (filename f) (size f) (content_type f) (file f)
             (pos f + List.length chunk)%nat).

(** [file.file.read()]: everything up to the end of the stream. *)
Definition read_all (f : t) : list byte * t :=
  let chunk := skipn (pos f) (file f) in
  (chunk, mk (filename f) (size f) (content_type f) (file f)
             (pos f + List.length chunk)%nat).

(** [file.file.seek(p)]. *)
Definition seek (p : nat) (f : t) : t :=
  mk (filename f) (size f) (content_type f) (file f) p.
End UploadFile.

(** The dict returned by [MediaService.upload_file]; a value is [None] when
    the backend's response lacks it. *)
Module UploadResult.
Record t := mk {
  url : option string;
  public_id : option string;
  resource_type : option string;
  format : option string;
  width : option Z;
  height : option Z;
  bytes : option Z
}.
End UploadResult.

(** The response dict of [cloudinary.uploader.upload], through the keys the
    service reads with [result.get]. *)
Module CloudinaryResponse.
Record t := mk {
  secure_url : option string;
  public_id : option string;
  resource_type : option string;
  format : option string;
  width : option Z;
  height : option Z;
  bytes : option Z
}.
End CloudinaryResponse.

(** The three settings [MediaService.__init__] reads from
    [app.core.config.settings]. *)
Module Settings.
Record t := mk {
  CLOUDINARY_CLOUD_NAME : option string;
  CLOUDINARY_API_KEY : option string;
  CLOUDINARY_API_SECRET : option string
}.
End Settings.

(** [Message]-like body of the delete route. *)
Definition Message := string.

(* ================================================================= *)
(** ** The world and the handler monad *)

(** A change staged in the SQLAlchemy session until [commit]. *)
Inductive Change :=
| Update (row : Item.t)
| Remove (key : UUID).

Definition Disk := list (string * list byte).

Record World := mkWorld {
  db : list Item.t;          (* committed rows of the item table, in scan order *)
  pending : list Change;     (* changes staged in the request's session *)
  disk : Disk;               (* files of the local upload root *)
  tick : nat                 (* number of external events so far *)
}.

Definition M (A : Type) : Type := World -> (HTTPException.t + A) * World.

Definition ret {A} (a : A) : M A := fun w => (inr a, w).

Definition raise {A} (e : HTTPException.t) : M A := fun w => (inl e, w).

Definition bind {A B} (c : M A) (k : A -> M B) : M B :=
  fun w =>
    match c w with
    | (inl e, w') => (inl e, w')
    | (inr a, w') => k a w'
    end.

Notation "x <- c ;; k" := (bind c (fun x => k))
  (at level 61, c at next level, right associativity).
Notation "c ;;; k" := (bind c (fun _ => k))
  (at level 61, right associativity).

(** Lifting a pure, fallible step. *)
Definition lift {A} (r : HTTPException.t + A) : M A := fun w => (r, w).

(** The outcome and the final world of a run. *)
Definition outcome {A} (r : (HTTPException.t + A) * World) := fst r.
Definition world_of {A} (r : (HTTPException.t + A) * World) := snd r.

(* ----------------------------------------------------------------- *)
(** *** The session *)

Module Session.

(** [session.get(Item, id)]: the row with that primary key, if any. *)
Definition lookup (rows : list Item.t) (key : UUID) : option Item.t :=
  find (fun r => (Item.id r =? key)%N) rows.

Definition get (key : UUID) : M (option Item.t) :=
  fun w => (inr (lookup (db w) key), w).

(** [session.add(item)]: stage the row image of a loaded object. *)
Definition add (item : Item.t) : M unit :=
  fun w => (inr tt, mkWorld (db w) (pending w ++ [Update item]) (disk w) (tick w)).

(** [session.delete(item)]. *)
Definition delete (item : Item.t) : M unit :=
  fun w => (inr tt, mkWorld (db w) (pending w ++ [Remove (Item.id item)]) (disk w) (tick w)).

(** One flushed statement: [UPDATE ... WHERE id = key] or
    [DELETE ... WHERE id = key]. *)
Definition apply (rows : list Item.t) (c : Change) : list Item.t :=
  match c with
  | Update row =>
      map (fun r => if (Item.id r =? Item.id row)%N then row else r) rows
  | Remove key =>
      filter (fun r => negb (Item.id r =? key)%N) rows
  end.

(** [session.commit()]. *)
Definition commit : M unit :=
  fun w => (inr tt, mkWorld (fold_left apply (pending w) (db w)) [] (disk w) (tick w)).

(** [session.refresh(item)]: reload the object from its row; an object
    whose row is gone makes the ORM raise, which the framework turns into
    a 500 response. *)
Definition refresh (item : Item.t) : M Item.t :=
  fun w =>
    match lookup (db w) (Item.id item) with
    | Some row => (inr row, w)
    | None => (inl (HTTPException.mk 500 "Internal Server Error"), w)
    end.

(** [select(func.count()).select_from(Item) [.where(p)]] then [.one()]. *)
Definition count_where (p : Item.t -> bool) : M Z :=
  fun w => (inr (Z.of_nat (List.length (filter p (db w)))), w).

(** [select(Item) [.where(p)] .offset(skip).limit(limit)] then [.all()].
    The database takes a non-negative offset and limit. *)
Definition select_where (p : Item.t -> bool) (skip limit : Z) : M (list Item.t) :=
  fun w => (inr (firstn (Z.to_nat limit) (skipn (Z.to_nat skip) (filter p (db w)))), w).

End Session.

(** The state of a [MediaService] instance; [upload_dir] is assigned only
    on the local branch of [__init__]. *)
Module MediaService.
Record t := mk {
  use_cloudinary : bool;
  upload_dir : option string
}.
End MediaService.

(** Raising with a given status code. *)
Definition fails_with {A} (code : Z) (r : HTTPException.t + A) : Prop :=
  match r with
  | inl e => HTTPException.status_code e = code
  | inr _ => False
  end.

(** What a validation raised, if anything. *)
Definition verdict {A} (r : HTTPException.t + A) : option HTTPException.t :=
  match r with
  | inl e => Some e
  | inr _ => None
  end.

(* ================================================================= *)
(** ** Concrete collaborators and data

    Stand-ins for the external collaborators, and a small database, on which
    the handlers can be run. *)

Module Sample.

(** A sniffer that knows the JPEG and PNG signatures and calls everything
    else plain text. *)
Definition magic (content : list byte) : string :=
  match content with
  | xff :: xd8 :: xff :: _ => "image/jpeg"
  | x89 :: x50 :: x4e :: x47 :: _ => "image/png"
  | _ => "text/plain"
  end.

(** The part of a name from its last dot on. *)
Fixpoint suffix (name : string) : string :=
  match name with
  | EmptyString => ""
  | String c rest =>
      match suffix rest with
      | EmptyString => if Ascii.eqb c "." then name else ""
      | s => s
      end
  end.

Definition uuid4 (n : nat) : string := "6f1c2d3e-0000-4000-8000-00000000000a".

(** A host that stores anything and reports it as a raw file. *)
Definition cloudinary_raw (n : nat) (content : list byte) (folder : string)
  : string + CloudinaryResponse.t :=
  inr (CloudinaryResponse.mk
         (Some "https://res.cloudinary.com/demo/raw/upload/items/a1")
         (Some "items/a1") (Some "raw") None None None
         (Some (Z.of_nat (List.length content)))).

(** A host that cannot be reached. *)
Definition cloudinary_down (n : nat) (content : list byte) (folder : string)
  : string + CloudinaryResponse.t :=
  inl "connection refused".

Definition destroy_down (n : nat) (public_id : string) : string + option string :=
  inl "connection refused".

Definition no_fault (n : nat) (path : string) : option string := None.

(** An update that sets the title. *)
Definition set_title (i : Item.t) (new_title : string) : Item.t :=
  Item.mk (Item.id i) (Item.owner_id i) new_title (Item.description i)
          (Item.media_type i) (Item.image_url i) (Item.video_url i).

Definition alice : User.t := User.mk 1%N false.
Definition bob : User.t := User.mk 2%N false.
Definition root : User.t := User.mk 9%N true.

(** Alice's item 10 carries a video; Bob's item 11 carries nothing; Alice's
    item 12 carries an image on the remote host. *)
Definition clip : Item.t :=
  Item.mk 10%N 1%N "clip" None (Some "video") None (Some "/uploads/items/old.mp4").
Definition note : Item.t :=
  Item.mk 11%N 2%N "note" (Some "plain") None None None.
Definition photo : Item.t :=
  Item.mk 12%N 1%N "photo" None (Some "image")
          (Some "https://res.cloudinary.com/demo/image/upload/items/p.jpg") None.

Definition world : World := mkWorld [clip; note; photo] [] [] 0%nat.

(** A world without any item. *)
Definition empty_world : World := mkWorld [] [] [] 0%nat.

Definition jpeg_bytes : list byte := [xff; xd8; xff; xe0; x00; x10].
Definition text_bytes : list byte := [x68; x65; x6c; x6c; x6f; x0a].

Definition jpeg_file : UploadFile.t :=
  UploadFile.mk (Some "cat.jpg") (Some 6) (Some "image/jpeg") jpeg_bytes 0%nat.

(** Plain text under a picture's name and declared type. *)
Definition renamed_text : UploadFile.t :=
  UploadFile.mk (Some "photo.jpg") (Some 6) (Some "image/jpeg") text_bytes 0%nat.

(** A text file of 15 MiB, declared as such. *)
Definition long_text : UploadFile.t :=
  UploadFile.mk (Some "notes.txt") (Some (15 * 1024 * 1024)) (Some "text/plain")
                (text_bytes ++ repeat x0a (N.to_nat (15 * 1024 * 1024 - 6)))
                0%nat.

(** A JPEG of 5 MiB, declared as such. *)
Definition large_jpeg : UploadFile.t :=
  UploadFile.mk (Some "cat.jpg") (Some (5 * 1024 * 1024)) (Some "image/jpeg")
                (jpeg_bytes ++ repeat x00 (N.to_nat (5 * 1024 * 1024 - 6)))
                0%nat.

(** An upload that declares no size. *)
Definition unsized_jpeg : UploadFile.t :=
  UploadFile.mk (Some "cat.jpg") None (Some "image/jpeg") jpeg_bytes 0%nat.

Definition local_service : MediaService.t := MediaService.mk false (Some "uploads").
Definition cloud_service : MediaService.t := MediaService.mk true None.

(** JPEG bytes declared as a video by the client. *)
Definition mislabeled_jpeg : UploadFile.t :=
  UploadFile.mk (Some "cat.mp4") (Some 6) (Some "video/mp4") jpeg_bytes 0%nat.

(** A JPEG sent without a name. *)
Definition nameless_jpeg : UploadFile.t :=
  UploadFile.mk None (Some 6) (Some "image/jpeg") jpeg_bytes 0%nat.

(** A stream of two bytes and then a JPEG, handed over with the two bytes
    already read. *)
Definition offset_jpeg : UploadFile.t :=
  UploadFile.mk (Some "cat.jpg") (Some 8) (Some "image/jpeg")
                (x00 :: x00 :: jpeg_bytes) 2%nat.

(** A host that stores an image. *)
Definition cloudinary_image (n : nat) (content : list byte) (folder : string)
  : string + CloudinaryResponse.t :=
  inr (CloudinaryResponse.mk
         (Some "https://res.cloudinary.com/demo/image/upload/items/a2.jpg")
         (Some "items/a2") (Some "image") (Some "jpg") (Some 640) (Some 480)
         (Some (Z.of_nat (List.length content)))).


Definition cloud_settings : Settings.t :=
  Settings.mk (Some "demo") (Some "key") (Some "secret").

(** The secret is set to the empty string. *)
Definition partial_settings : Settings.t :=
  Settings.mk (Some "demo") (Some "key") (Some "").


End Sample.

(** A handler over the sample collaborators, with a host that reports raw
    files and with one that stores images. *)
Abbreviation with_raw_host f :=
  (f Sample.magic Sample.suffix Sample.uuid4 Sample.cloudinary_raw
     Sample.no_fault) (only parsing).
Abbreviation with_image_host f :=
  (f Sample.magic Sample.suffix Sample.uuid4 Sample.cloudinary_image
     Sample.no_fault) (only parsing).

(* ================================================================= *)
(** ** The code under verification *)

Section Program.

(** *** External collaborators *)

(** [magic.from_buffer(content, mime=True)] of libmagic. *)
Variable magic_from_buffer : list byte -> string.

(** [pathlib.Path(name).suffix]. *)
Variable path_suffix : string -> string.

(** [str(uuid.uuid4())], by the number of the external event. *)
Variable uuid4 : nat -> string.

(** [cloudinary.uploader.upload(stream, folder=..., resource_type="auto",
    eager=..., eager_async=True)]: the response, or [inl (str e)] when the
    client raises [e]. *)
Variable cloudinary_upload :
  nat -> list byte -> string -> string + CloudinaryResponse.t.

(** [cloudinary.uploader.destroy(public_id)]: [result.get("result")], or
    [inl (str e)] when the client raises. *)
Variable cloudinary_destroy : nat -> string -> string + option string.

(** The operating system's answer to a write under a path: [Some (str e)]
    when it raises [e]. *)
Variable disk_fault : nat -> string -> option string.

(** The [ItemUpdate] schema of [app.models] and
    [item.sqlmodel_update(item_in.model_dump(exclude_unset=True))]. *)
Variable ItemUpdate : Type.
Variable sqlmodel_update : Item.t -> ItemUpdate -> Item.t.

(* --------------------------------------------------------------- *)
(** *** backend/app/core/media.py *)

(** [MediaService.__init__]. *)
Definition __init__ (settings : Settings.t) : MediaService.t :=
  let use_cloudinary :=
    forallb Py.truthy_str
      [ Settings.CLOUDINARY_CLOUD_NAME settings;
        Settings.CLOUDINARY_API_KEY settings;
        Settings.CLOUDINARY_API_SECRET settings ] in
  if use_cloudinary
  then MediaService.mk true None
  else MediaService.mk false (Some "uploads").

Definition allowed_image_types : list string :=
  ["image/jpeg"; "image/png"; "image/gif"; "image/webp"].

Definition allowed_video_types : list string :=
  ["video/mp4"; "video/webm"; "video/ogg"; "video/quicktime"].

(** The size test of [_validate_file]:
    [file.size and file.size > max_size_bytes]. *)
Definition too_large (file : UploadFile.t) (max_size_bytes : Z) : bool :=
  Py.truthy_int (UploadFile.size file)
  && match UploadFile.size file with
     | Some n => n >? max_size_bytes
     | None => false
     end.

(** [MediaService._validate_file]. It returns nothing in Python; here it
    returns the file, whose stream it has read and rewound. *)
Definition _validate_file (file : UploadFile.t) (max_size_mb : Z)
  : HTTPException.t + UploadFile.t :=
  let max_size_bytes := max_size_mb * 1024 * 1024 in
  if too_large file max_size_bytes
  then
    inl (HTTPException.mk 413
           ("File too large. Maximum size is " ++ Py.str max_size_mb ++ "MB"))
  else
    let (content, file) := UploadFile.read 2048 file in
    let file := UploadFile.seek 0 file in
    let mime_type := magic_from_buffer content in
    if negb (Py.mem mime_type (allowed_image_types ++ allowed_video_types)%list)
    then
      inl (HTTPException.mk 400
             ("Unsupported file type: " ++ mime_type ++ ". Allowed: "
              ++ Py.join ", " (allowed_image_types ++ allowed_video_types)%list))
    else inr file.

(** The bytes [_validate_file] hands to the sniffer. *)
Definition leading_bytes (file : UploadFile.t) : list byte :=
  firstn 2048 (skipn (UploadFile.pos file) (UploadFile.file file)).

Definition too_large_error (max_size_mb : Z) : HTTPException.t :=
  HTTPException.mk 413
    ("File too large. Maximum size is " ++ Py.str max_size_mb ++ "MB").

Definition unsupported_error (mime_type : string) : HTTPException.t :=
  HTTPException.mk 400
    ("Unsupported file type: " ++ mime_type ++ ". Allowed: "
     ++ Py.join ", " (allowed_image_types ++ allowed_video_types)%list).

(** [MediaService._upload_to_cloudinary]. *)
Definition _upload_to_cloudinary (file : UploadFile.t) (folder : string)
  : M UploadResult.t :=
  fun w =>
    let w' := mkWorld (db w) (pending w) (disk w) (S (tick w)) in
    match cloudinary_upload (tick w) (fst (UploadFile.read_all file)) folder with
    | inr result =>
        (inr (UploadResult.mk
                (CloudinaryResponse.secure_url result)
                (CloudinaryResponse.public_id result)
                (CloudinaryResponse.resource_type result)
                (CloudinaryResponse.format result)
                (CloudinaryResponse.width result)
                (CloudinaryResponse.height result)
                (CloudinaryResponse.bytes result)), w')
    | inl e =>
        (inl (HTTPException.mk 500 ("Cloudinary upload failed: " ++ e)), w')
    end.

(** Writing a file of the local disk. *)
Definition disk_write (d : Disk) (path : string) (content : list byte) : Disk :=
  (path, content) :: filter (fun e => negb (String.eqb (fst e) path)) d.

Definition disk_exists (d : Disk) (path : string) : bool :=
  existsb (fun e => String.eqb (fst e) path) d.

Definition disk_unlink (d : Disk) (path : string) : Disk :=
  filter (fun e => negb (String.eqb (fst e) path)) d.

(** Reading a file of the local disk back. *)
Definition disk_read (d : Disk) (path : string) : option (list byte) :=
  option_map snd (find (fun e => String.eqb (fst e) path) d).

(** The extension [_upload_to_local] gives the stored name:
    [Path(file.filename).suffix if file.filename else ""]. *)
Definition stored_extension (file : UploadFile.t) : string :=
  match UploadFile.filename file with
  | Some name => if Py.truthy_str (Some name) then path_suffix name else ""
  | None => ""
  end.

Definition local_failed (e : string) : HTTPException.t :=
  HTTPException.mk 500 ("Local upload failed: " ++ e).

(** [MediaService._upload_to_local]. The whole body is under [try]: every
    exception becomes the 500 response. A faulty [mkdir] or write leaves
    the modelled disk as it was. The two pathlib joins are written with
    ["/"] between the parts, which is what pathlib gives for the root
    [uploads] of [__init__], the callers' folder ["items"] and a plain file
    name; for another folder pathlib may spell the path otherwise. *)
Definition _upload_to_local (self : MediaService.t) (file : UploadFile.t)
    (folder : string) : M UploadResult.t :=
  fun w =>
    let w' := mkWorld (db w) (pending w) (disk w) (S (tick w)) in
    match MediaService.upload_dir self with
    | None =>
        (inl (local_failed "'MediaService' object has no attribute 'upload_dir'"), w)
    | Some upload_dir =>
        let folder_path := upload_dir ++ "/" ++ folder in
        match disk_fault (tick w) folder_path with
        | Some e => (inl (local_failed e), w')
        | None =>
            let file_extension :=
              match UploadFile.filename file with
              | Some name => if Py.truthy_str (Some name) then path_suffix name else ""
              | None => ""
              end in
            let unique_filename := uuid4 (tick w) ++ file_extension in
            let file_path := folder_path ++ "/" ++ unique_filename in
            match disk_fault (tick w) file_path with
            | Some e => (inl (local_failed e), w')
            | None =>
                let content := fst (UploadFile.read_all file) in
                let resource_type :=
                  if Py.truthy_str (UploadFile.content_type file)
                     && match UploadFile.content_type file with
                        | Some ct => Py.startswith ct "image/"
                        | None => false
                        end
                  then "image" else "video" in
                (inr (UploadResult.mk
                        (Some ("/uploads/" ++ folder ++ "/" ++ unique_filename))
                        (Some file_path)
                        (Some resource_type)
                        (Some (if Py.truthy_str (Some file_extension)
                               then Py.lstrip_dot file_extension
                               else "unknown"))
                        None
                        None
                        (Some (Z.of_nat (List.length content)))),
                 mkWorld (db w) (pending w)
                         (disk_write (disk w) file_path content) (S (tick w)))
            end
        end
    end.

(** [MediaService.upload_file], with its default [folder="items"] passed
    by the callers. *)
Definition upload_file (self : MediaService.t) (file : UploadFile.t)
    (folder : string) : M UploadResult.t :=
  file <- lift (_validate_file file 10) ;;
  if MediaService.use_cloudinary self
  then _upload_to_cloudinary file folder
  else _upload_to_local self file folder.

(** [MediaService.delete_file]: both branches catch every exception and
    answer [False]. *)
Definition delete_file (self : MediaService.t) (public_id : string) : M bool :=
  fun w =>
    let w' := mkWorld (db w) (pending w) (disk w) (S (tick w)) in
    if MediaService.use_cloudinary self then
      match cloudinary_destroy (tick w) public_id with
      | inr result =>
          (inr match result with
               | Some r => String.eqb r "ok"
               | None => false
               end, w')
      | inl _ => (inr false, w')
      end
    else
      match disk_fault (tick w) public_id with
      | Some _ => (inr false, w')
      | None =>
          if disk_exists (disk w) public_id
          then (inr true,
                mkWorld (db w) (pending w) (disk_unlink (disk w) public_id)
                        (S (tick w)))
          else (inr false, w')
      end.

(** [get_media_service]: the module-level instance, built on first use. *)
Definition get_media_service (settings : Settings.t)
    (media_service : option MediaService.t)
  : MediaService.t * option MediaService.t :=
  match media_service with
  | None => let s := __init__ settings in (s, Some s)
  | Some s => (s, Some s)
  end.

(* --------------------------------------------------------------- *)
(** *** backend/app/api/routes/items.py *)

Definition not_found : HTTPException.t :=
  HTTPException.mk 404 "Item not found".

Definition not_enough_permissions : HTTPException.t :=
  HTTPException.mk 400 "Not enough permissions".

(** The guard of the per-item routes:
    [not current_user.is_superuser and (item.owner_id != current_user.id)]. *)
Definition denied (current_user : User.t) (item : Item.t) : bool :=
  negb (User.is_superuser current_user)
  && negb (Item.owner_id item =? User.id current_user)%N.

(** [read_items]. *)
Definition read_items (current_user : User.t) (skip limit : Z)
  : M ItemsPublic.t :=
  if User.is_superuser current_user then
    count <- Session.count_where (fun _ => true) ;;
    items <- Session.select_where (fun _ => true) skip limit ;;
    ret (ItemsPublic.mk items count)
  else
    count <- Session.count_where
               (fun i => (Item.owner_id i =? User.id current_user)%N) ;;
    items <- Session.select_where
               (fun i => (Item.owner_id i =? User.id current_user)%N) skip limit ;;
    ret (ItemsPublic.mk items count).

(** [read_item]. *)
Definition read_item (current_user : User.t) (id : UUID) : M Item.t :=
  item <- Session.get id ;;
  match item with
  | None => raise not_found
  | Some item =>
      if denied current_user item then raise not_enough_permissions
      else ret item
  end.

(** [upload_media]: the route declares no session and no current user. *)
Definition upload_media (file : UploadFile.t) (media_service : MediaService.t)
  : M UploadResult.t :=
  result <- upload_file media_service file "items" ;;
  ret result.

(** The [if]/[elif] of [add_media_to_item] that records an upload result on
    the item; no branch is taken for another resource type. *)
Definition record_media (item : Item.t) (upload_result : UploadResult.t) : Item.t :=
  if Py.eq_opt (UploadResult.resource_type upload_result) "image" then
    let item := Item.set_image_url (UploadResult.url upload_result) item in
    Item.set_media_type (Some "image") item
  else if Py.eq_opt (UploadResult.resource_type upload_result) "video" then
    let item := Item.set_video_url (UploadResult.url upload_result) item in
    Item.set_media_type (Some "video") item
  else item.

(** [add_media_to_item]. *)
Definition add_media_to_item (current_user : User.t) (id : UUID)
    (file : UploadFile.t) (media_service : MediaService.t) : M Item.t :=
  item <- Session.get id ;;
  match item with
  | None => raise not_found
  | Some item =>
      if denied current_user item then raise not_enough_permissions
      else
        upload_result <- upload_file media_service file "items" ;;
        let item := record_media item upload_result in
        Session.add item ;;;
        Session.commit ;;;
        item <- Session.refresh item ;;
        ret item
  end.

(** [update_item]. *)
Definition update_item (current_user : User.t) (id : UUID)
    (item_in : ItemUpdate) : M Item.t :=
  item <- Session.get id ;;
  match item with
  | None => raise not_found
  | Some item =>
      if denied current_user item then raise not_enough_permissions
      else
        let item := sqlmodel_update item item_in in
        Session.add item ;;;
        Session.commit ;;;
        item <- Session.refresh item ;;
        ret item
  end.

(** The two tests of [delete_item] on the stored urls:
    [item.image_url and "cloudinary" in item.image_url]. *)
Definition hosted_on_cloudinary (url : option string) : bool :=
  Py.truthy_str url
  && match url with
     | Some u => Py.contains "cloudinary" u
     | None => false
     end.

(** [delete_item]. Both media branches are [pass]: the media service it
    receives is never called. *)
Definition delete_item (current_user : User.t) (id : UUID)
    (media_service : MediaService.t) : M Message :=
  item <- Session.get id ;;
  match item with
  | None => raise not_found
  | Some item =>
      if denied current_user item then raise not_enough_permissions
      else
        (if hosted_on_cloudinary (Item.image_url item) then ret tt else ret tt) ;;;
        (if hosted_on_cloudinary (Item.video_url item) then ret tt else ret tt) ;;;
        Session.delete item ;;;
        Session.commit ;;;
        ret "Item deleted successfully"
  end.

(** The routes of [router]: each handler gets the dependencies its signature
    declares. [create_item] is left out. *)
Inductive Request :=
| GetItems (skip limit : Z)
| GetItem (id : UUID)
| PostUploadMedia (file : UploadFile.t)
| PostItemMedia (id : UUID) (file : UploadFile.t)
| PutItem (id : UUID) (item_in : ItemUpdate)
| DeleteItem (id : UUID).

Inductive Response :=
| ItemsBody (b : ItemsPublic.t)
| ItemBody (b : Item.t)
| UploadBody (b : UploadResult.t)
| MessageBody (b : Message).

Definition router (current_user : User.t) (media_service : MediaService.t)
    (req : Request) : M Response :=
  match req with
  | GetItems skip limit =>
      b <- read_items current_user skip limit ;; ret (ItemsBody b)
  | GetItem id =>
      b <- read_item current_user id ;; ret (ItemBody b)
  | PostUploadMedia file =>
      b <- upload_media file media_service ;; ret (UploadBody b)
  | PostItemMedia id file =>
      b <- add_media_to_item current_user id file media_service ;; ret (ItemBody b)
  | PutItem id item_in =>
      b <- update_item current_user id item_in ;; ret (ItemBody b)
  | DeleteItem id =>
      b <- delete_item current_user id media_service ;; ret (MessageBody b)
  end.

(* ================================================================= *)
(** ** Properties *)

(** *** The session *)

Lemma lookup_id rows key row :
  Session.lookup rows key = Some row -> Item.id row = key.
Proof.
  unfold Session.lookup. intros H.
  apply find_some in H. destruct H as [_ H].
  now apply N.eqb_eq.
Qed.

Lemma lookup_in rows key row :
  Session.lookup rows key = Some row -> In row rows.
Proof.
  unfold Session.lookup. intros H. now apply find_some in H.
Qed.

Lemma lookup_update rows key row row' :
  Session.lookup rows key = Some row ->
  Item.id row' = key ->
  Session.lookup (Session.apply rows (Update row')) key = Some row'.
Proof.
  intros Hfound Hkey. subst key.
  induction rows as [|r rows IH]; simpl in *.
  - discriminate.
  - destruct (Item.id r =? Item.id row')%N eqn:E; simpl.
    + now rewrite N.eqb_refl.
    + rewrite E. now apply IH.
Qed.

Lemma lookup_remove rows key :
  Session.lookup (Session.apply rows (Remove key)) key = None.
Proof.
  induction rows as [|r rows IH]; simpl.
  - reflexivity.
  - destruct (Item.id r =? key)%N eqn:E; simpl.
    + exact IH.
    + rewrite E. exact IH.
Qed.

Lemma commit_last staged c rows :
  fold_left Session.apply (staged ++ [c]) rows
  = Session.apply (fold_left Session.apply staged rows) c.
Proof. now rewrite fold_left_app. Qed.

(** *** The media service leaves the database alone *)

Lemma upload_to_cloudinary_frame file folder w :
  db (world_of (_upload_to_cloudinary file folder w)) = db w
  /\ pending (world_of (_upload_to_cloudinary file folder w)) = pending w.
Proof.
  unfold _upload_to_cloudinary, world_of.
  destruct (cloudinary_upload _ _ _); simpl; auto.
Qed.

Lemma upload_to_local_frame self file folder w :
  db (world_of (_upload_to_local self file folder w)) = db w
  /\ pending (world_of (_upload_to_local self file folder w)) = pending w.
Proof.
  unfold _upload_to_local, world_of.
  destruct (MediaService.upload_dir self); simpl; auto.
  destruct (disk_fault _ _); simpl; auto.
  destruct (disk_fault _ _); simpl; auto.
Qed.

Lemma upload_file_frame self file folder w :
  db (world_of (upload_file self file folder w)) = db w
  /\ pending (world_of (upload_file self file folder w)) = pending w.
Proof.
  unfold upload_file, bind, lift.
  destruct (_validate_file file 10) as [e|file'].
  - simpl. auto.
  - destruct (MediaService.use_cloudinary self).
    + apply upload_to_cloudinary_frame.
    + apply upload_to_local_frame.
Qed.

(** A rejected file reaches no backend: the world is untouched. *)
Lemma upload_file_rejected self file folder w e :
  _validate_file file 10 = inl e ->
  upload_file self file folder w = (inl e, w).
Proof.
  intros H. unfold upload_file, bind, lift. now rewrite H.
Qed.

(** *** Recording an upload on an item *)

Lemma record_media_id item r :
  Item.id (record_media item r) = Item.id item.
Proof.
  unfold record_media.
  destruct (Py.eq_opt _ "image"); [reflexivity|].
  destruct (Py.eq_opt _ "video"); reflexivity.
Qed.

Lemma record_media_image item r :
  UploadResult.resource_type r = Some "image" ->
  record_media item r
  = Item.mk (Item.id item) (Item.owner_id item) (Item.title item)
            (Item.description item) (Some "image") (UploadResult.url r)
            (Item.video_url item).
Proof.
  intros H. unfold record_media. rewrite H. reflexivity.
Qed.

Lemma record_media_video item r :
  UploadResult.resource_type r = Some "video" ->
  record_media item r
  = Item.mk (Item.id item) (Item.owner_id item) (Item.title item)
            (Item.description item) (Some "video") (Item.image_url item)
            (UploadResult.url r).
Proof.
  intros H. unfold record_media. rewrite H. reflexivity.
Qed.

Lemma record_media_other item r :
  UploadResult.resource_type r <> Some "image" ->
  UploadResult.resource_type r <> Some "video" ->
  record_media item r = item.
Proof.
  intros Hi Hv. unfold record_media, Py.eq_opt.
  destruct (UploadResult.resource_type r) as [s|]; [|reflexivity].
  destruct (String.eqb_spec s "image"); [subst; congruence|].
  destruct (String.eqb_spec s "video"); [subst; congruence|].
  reflexivity.
Qed.

(** The run of [add_media_to_item] once the item is found, the requester is
    let through and the upload has succeeded. *)
Lemma add_media_run current_user id file media_service w item r w1 :
  Session.lookup (db w) id = Some item ->
  denied current_user item = false ->
  pending w = [] ->
  upload_file media_service file "items" w = (inr r, w1) ->
  exists w2,
    add_media_to_item current_user id file media_service w
    = (inr (record_media item r), w2)
    /\ Session.lookup (db w2) id = Some (record_media item r).
Proof.
  intros Hfound Hallowed Hfresh Hup.
  pose proof (upload_file_frame media_service file "items" w) as [Hdb Hpend].
  rewrite Hup in Hdb, Hpend. unfold world_of in Hdb, Hpend. simpl in Hdb, Hpend.
  assert (Hrow : Session.lookup
                   (Session.apply (db w1) (Update (record_media item r))) id
                 = Some (record_media item r)).
  { apply lookup_update with (row := item).
    - now rewrite Hdb.
    - rewrite record_media_id. now apply lookup_id with (rows := db w). }
  assert (Hkey : Item.id (record_media item r) = id).
  { rewrite record_media_id. now apply lookup_id with (rows := db w). }
  eexists.
  unfold add_media_to_item, bind, Session.get.
  cbn [db]. rewrite Hfound, Hallowed. rewrite Hup.
  unfold Session.add, Session.commit, Session.refresh, ret.
  cbn [db pending disk tick fold_left app].
  rewrite Hpend, Hfresh. cbn [fold_left app]. rewrite Hkey, Hrow.
  split; [reflexivity|]. cbn [db]. exact Hrow.
Qed.

(** *** Attaching media to an item *)

(** C1, as the code has it. When the item is found, the requester is let
    through and the upload succeeds, [add_media_to_item] returns and stores
    the item with the result recorded on it: for an image result,
    [media_type] is ["image"], [image_url] is the result's url and
    [video_url] is what it was before; for a video result, [media_type] is
    ["video"], [video_url] is the result's url and [image_url] is what it was
    before. The url of the other kind is kept, not cleared. *)
Theorem add_media_records_result
    current_user id file media_service w item upload_result w1 :
  Session.lookup (db w) id = Some item ->
  denied current_user item = false ->
  pending w = [] ->
  upload_file media_service file "items" w = (inr upload_result, w1) ->
  exists item' w2,
    add_media_to_item current_user id file media_service w = (inr item', w2)
    /\ Session.lookup (db w2) id = Some item'
    /\ (UploadResult.resource_type upload_result = Some "image" ->
        Item.media_type item' = Some "image"
        /\ Item.image_url item' = UploadResult.url upload_result
        /\ Item.video_url item' = Item.video_url item)
    /\ (UploadResult.resource_type upload_result = Some "video" ->
        Item.media_type item' = Some "video"
        /\ Item.video_url item' = UploadResult.url upload_result
        /\ Item.image_url item' = Item.image_url item).
Proof.
  intros Hfound Hallowed Hfresh Hup.
  destruct (add_media_run current_user id file media_service w item
              upload_result w1 Hfound Hallowed Hfresh Hup) as (w2 & Hrun & Hrow).
  exists (record_media item upload_result), w2.
  repeat split; trivial.
  all: try (rewrite (record_media_image item upload_result) by assumption;
            reflexivity).
  all: rewrite (record_media_video item upload_result) by assumption;
       reflexivity.
Qed.

(** C4, as the code has it. An upload result whose [resource_type] is
    neither ["image"] nor ["video"] raises nothing: [add_media_to_item]
    returns the item as it was found and stores it unchanged. *)
Theorem add_media_other_type_keeps_item
    current_user id file media_service w item upload_result w1 :
  Session.lookup (db w) id = Some item ->
  denied current_user item = false ->
  pending w = [] ->
  upload_file media_service file "items" w = (inr upload_result, w1) ->
  UploadResult.resource_type upload_result <> Some "image" ->
  UploadResult.resource_type upload_result <> Some "video" ->
  exists w2,
    add_media_to_item current_user id file media_service w = (inr item, w2)
    /\ Session.lookup (db w2) id = Some item.
Proof.
  intros Hfound Hallowed Hfresh Hup Himg Hvid.
  destruct (add_media_run current_user id file media_service w item
              upload_result w1 Hfound Hallowed Hfresh Hup) as (w2 & Hrun & Hrow).
  rewrite (record_media_other item upload_result Himg Hvid) in Hrun, Hrow.
  now exists w2.
Qed.

(** C5. When the upload step of an add-media request fails, with a
    validation error or a backend failure, the request fails too, nothing is
    staged or committed, and every row of the item table is what it was; for
    a found item and a permitted requester the error is the upload's. *)
Theorem failed_upload_writes_nothing
    current_user id file media_service w e :
  outcome (upload_file media_service file "items" w) = inl e ->
  (exists e', outcome (add_media_to_item current_user id file media_service w)
              = inl e')
  /\ db (world_of (add_media_to_item current_user id file media_service w))
     = db w
  /\ pending (world_of (add_media_to_item current_user id file media_service w))
     = pending w
  /\ (forall item,
        Session.lookup (db w) id = Some item ->
        denied current_user item = false ->
        outcome (add_media_to_item current_user id file media_service w)
        = inl e).
Proof.
  intros Hup.
  pose proof (upload_file_frame media_service file "items" w) as [Hdb Hpend].
  unfold outcome, world_of in *.
  unfold add_media_to_item, bind, Session.get. cbn [db].
  destruct (Session.lookup (db w) id) as [item|] eqn:Hfound.
  - destruct (denied current_user item) eqn:Hden.
    + unfold raise. cbn. repeat split; eauto. intros ? [= <-] ?. congruence.
    + destruct (upload_file media_service file "items" w) as [r w1] eqn:Hrun.
      cbn in Hup. subst r. cbn in *.
      repeat split; eauto.
  - unfold raise. cbn. repeat split; eauto. intros ? ?. discriminate.
Qed.

(** *** The access policy *)

Lemma denied_false_iff current_user item :
  denied current_user item = false
  <-> User.is_superuser current_user = true
      \/ User.id current_user = Item.owner_id item.
Proof.
  unfold denied.
  destruct (User.is_superuser current_user); cbn.
  - split; auto.
  - destruct (N.eqb_spec (Item.owner_id item) (User.id current_user)); cbn.
    + split; auto.
    + split; [discriminate|]. intros [H|H]; [discriminate|]. congruence.
Qed.

Lemma denied_true_iff current_user item :
  denied current_user item = true
  <-> ~ (User.is_superuser current_user = true
         \/ User.id current_user = Item.owner_id item).
Proof.
  rewrite <- denied_false_iff.
  destruct (denied current_user item); split; congruence.
Qed.

Lemma read_item_found current_user id w item :
  Session.lookup (db w) id = Some item ->
  read_item current_user id w
  = if denied current_user item then (inl not_enough_permissions, w)
    else (inr item, w).
Proof.
  intros Hfound. unfold read_item, bind, Session.get. cbn [db].
  rewrite Hfound. now destruct (denied current_user item).
Qed.

Lemma delete_item_found current_user id media_service w item :
  Session.lookup (db w) id = Some item ->
  delete_item current_user id media_service w
  = if denied current_user item then (inl not_enough_permissions, w)
    else (inr "Item deleted successfully",
          mkWorld (fold_left Session.apply (pending w ++ [Remove (Item.id item)])
                             (db w))
                  [] (disk w) (tick w)).
Proof.
  intros Hfound. unfold delete_item, bind, Session.get. cbn [db].
  rewrite Hfound. destruct (denied current_user item); [reflexivity|].
  destruct (hosted_on_cloudinary (Item.image_url item));
    destruct (hosted_on_cloudinary (Item.video_url item)); reflexivity.
Qed.

Lemma update_item_found current_user id item_in w item :
  Session.lookup (db w) id = Some item ->
  update_item current_user id item_in w
  = if denied current_user item then (inl not_enough_permissions, w)
    else
      let w' := mkWorld (fold_left Session.apply
                           (pending w ++ [Update (sqlmodel_update item item_in)])
                           (db w))
                        [] (disk w) (tick w) in
      match Session.lookup (db w') (Item.id (sqlmodel_update item item_in)) with
      | Some row => (inr row, w')
      | None => (inl (HTTPException.mk 500 "Internal Server Error"), w')
      end.
Proof.
  intros Hfound. unfold update_item, bind, Session.get. cbn [db].
  rewrite Hfound. destruct (denied current_user item); [reflexivity|].
  unfold Session.add, Session.commit, Session.refresh, ret.
  cbn [db pending disk tick]. clear Hfound.
  destruct (Session.lookup _ _); reflexivity.
Qed.

(** C2. For an item that is found, [read_item], [update_item] and
    [delete_item] get past the permission check exactly when the requester is
    a superuser or owns the item; otherwise each raises the 400
    "Not enough permissions" error and leaves the world as it was. A
    permitted read returns the item, a permitted delete returns its message,
    and a permitted update that keeps the primary key returns the updated
    item. *)
Theorem per_item_access
    current_user id (item_in : ItemUpdate) media_service w item :
  Session.lookup (db w) id = Some item ->
  (outcome (read_item current_user id w) = inr item
   <-> User.is_superuser current_user = true
       \/ User.id current_user = Item.owner_id item)
  /\ (outcome (update_item current_user id item_in w)
        <> inl not_enough_permissions
      <-> User.is_superuser current_user = true
          \/ User.id current_user = Item.owner_id item)
  /\ (outcome (delete_item current_user id media_service w)
        = inr "Item deleted successfully"
      <-> User.is_superuser current_user = true
          \/ User.id current_user = Item.owner_id item)
  /\ (~ (User.is_superuser current_user = true
         \/ User.id current_user = Item.owner_id item) ->
      read_item current_user id w = (inl not_enough_permissions, w)
      /\ update_item current_user id item_in w = (inl not_enough_permissions, w)
      /\ delete_item current_user id media_service w
         = (inl not_enough_permissions, w))
  /\ (User.is_superuser current_user = true
      \/ User.id current_user = Item.owner_id item ->
      pending w = [] ->
      Item.id (sqlmodel_update item item_in) = id ->
      outcome (update_item current_user id item_in w)
      = inr (sqlmodel_update item item_in)).
Proof.
  intros Hfound.
  rewrite (read_item_found current_user id w item Hfound).
  rewrite (delete_item_found current_user id media_service w item Hfound).
  rewrite (update_item_found current_user id item_in w item Hfound).
  rewrite <- denied_false_iff.
  destruct (denied current_user item) eqn:Hden; unfold outcome; cbn [fst].
  - repeat split; congruence.
  - repeat split; try congruence; try discriminate.
    + intros _. unfold not_enough_permissions.
      match goal with
      | |- context [match ?found with Some _ => _ | None => _ end] =>
          destruct found
      end; cbn [fst]; congruence.
    + intros _ Hfresh Hkey. cbn [db]. rewrite Hfresh. cbn [app fold_left].
      rewrite Hkey.
      rewrite (lookup_update (db w) id item (sqlmodel_update item item_in)
                 Hfound Hkey).
      reflexivity.
Qed.

(** *** Deleting an item *)

(** C8. For a found item the requester may delete, [delete_item] returns its
    success message and the item is gone from the table afterwards, for every
    media service and every behaviour of the media backend: the handler
    touches neither the disk nor the remote host. Nor could a cleanup raise:
    [delete_file] answers a boolean whatever the backend does. *)
Theorem delete_item_never_blocked
    current_user id media_service w item :
  Session.lookup (db w) id = Some item ->
  denied current_user item = false ->
  exists w',
    delete_item current_user id media_service w
    = (inr "Item deleted successfully", w')
    /\ Session.lookup (db w') id = None
    /\ pending w' = []
    /\ disk w' = disk w
    /\ tick w' = tick w
    /\ (forall public_id w0,
          exists ok, outcome (delete_file media_service public_id w0) = inr ok).
Proof.
  intros Hfound Hallowed.
  rewrite (delete_item_found current_user id media_service w item Hfound).
  rewrite Hallowed. eexists. split; [reflexivity|]. cbn [db pending disk tick].
  repeat split.
  - rewrite commit_last. rewrite (lookup_id _ _ _ Hfound). apply lookup_remove.
  - intros public_id w0. unfold delete_file, outcome.
    destruct (MediaService.use_cloudinary media_service).
    + destruct (cloudinary_destroy _ _); cbn; eauto.
    + destruct (disk_fault _ _); cbn; eauto.
      destruct (disk_exists _ _); cbn; eauto.
Qed.

(** *** Listing *)

Lemma page_in {A} (n m : nat) (l : list A) (x : A) :
  In x (firstn n (skipn m l)) -> In x l.
Proof.
  intros H.
  rewrite <- (firstn_skipn m l). apply in_or_app. right.
  rewrite <- (firstn_skipn n (skipn m l)). apply in_or_app. now left.
Qed.

(** C3. [read_items] answers over the requester's scope: the whole table for
    a superuser, the rows whose [owner_id] is the requester's id otherwise.
    The count is the size of that scope, taken before [offset]/[limit]; the
    data is the page of the scope, so every returned row lies in the scope
    and, from offset 0 with a limit that covers the count, the data is the
    whole scope. The world is left as it was. *)
Theorem read_items_scoped current_user skip limit w :
  0 <= skip -> 0 <= limit ->
  let scope :=
    if User.is_superuser current_user then db w
    else filter (fun i => (Item.owner_id i =? User.id current_user)%N) (db w) in
  exists data,
    read_items current_user skip limit w
    = (inr (ItemsPublic.mk data (Z.of_nat (List.length scope))), w)
    /\ data = firstn (Z.to_nat limit) (skipn (Z.to_nat skip) scope)
    /\ (forall i, In i data -> In i scope)
    /\ (skip = 0 -> Z.of_nat (List.length scope) <= limit -> data = scope)
    /\ (User.is_superuser current_user = false ->
        forall i, In i scope
                  <-> In i (db w) /\ Item.owner_id i = User.id current_user).
Proof.
  intros Hskip Hlimit scope. subst scope.
  eexists. split; [|split; [reflexivity|]].
  - unfold read_items.
    destruct (User.is_superuser current_user);
      unfold bind, Session.count_where, Session.select_where, ret;
      cbn [db]; rewrite ?filter_true; reflexivity.
  - split; [|split].
    + intros i. apply page_in.
    + intros -> Hcover. cbn [Z.to_nat skipn].
      apply firstn_all2. lia.
    + intros Husr i. rewrite Husr, filter_In, N.eqb_eq. reflexivity.
Qed.

(** *** Validation *)

(** [_validate_file], case by case. *)
Lemma validate_file_cases file max_size_mb :
  _validate_file file max_size_mb
  = if too_large file (max_size_mb * 1024 * 1024)
    then inl (too_large_error max_size_mb)
    else if Py.mem (magic_from_buffer (leading_bytes file))
                   (allowed_image_types ++ allowed_video_types)%list
         then inr (UploadFile.seek 0 file)
         else inl (unsupported_error (magic_from_buffer (leading_bytes file))).
Proof.
  unfold _validate_file. cbv zeta.
  destruct (too_large file _); [reflexivity|].
  unfold UploadFile.read, leading_bytes. cbv zeta.
  destruct (Py.mem _ _); reflexivity.
Qed.

Lemma too_large_sized file n bound :
  UploadFile.size file = Some n ->
  too_large file bound = negb (n =? 0)%Z && (n >? bound)%Z.
Proof. intros H. unfold too_large. now rewrite H. Qed.

Lemma too_large_unsized file bound :
  UploadFile.size file = None \/ UploadFile.size file = Some 0 ->
  too_large file bound = false.
Proof. intros [H|H]; unfold too_large; now rewrite H. Qed.

Lemma fails_413_iff file max_size_mb :
  fails_with 413 (_validate_file file max_size_mb)
  <-> too_large file (max_size_mb * 1024 * 1024) = true.
Proof.
  rewrite validate_file_cases.
  destruct (too_large file _).
  - cbn. split; auto.
  - destruct (Py.mem _ _); cbn; split; try discriminate; try contradiction.
Qed.

(** C6. For a file that declares its size and a non-negative limit,
    [_validate_file] raises the 413 "File too large" error exactly when the
    declared size exceeds the limit in bytes. Against the default 10 MiB, a
    file of 15 MiB is rejected with that error; a file of 5 MiB is not, and
    is accepted when it is sniffed as a JPEG. *)
Theorem size_check_limit file n max_size_mb :
  UploadFile.size file = Some n ->
  0 <= max_size_mb ->
  (fails_with 413 (_validate_file file max_size_mb)
   <-> n > max_size_mb * 1024 * 1024)
  /\ (n > max_size_mb * 1024 * 1024 ->
      _validate_file file max_size_mb = inl (too_large_error max_size_mb))
  /\ (max_size_mb = 10 -> n = 15 * 1024 * 1024 ->
      _validate_file file max_size_mb
      = inl (HTTPException.mk 413 "File too large. Maximum size is 10MB"))
  /\ (max_size_mb = 10 -> n = 5 * 1024 * 1024 ->
      ~ fails_with 413 (_validate_file file max_size_mb)
      /\ (magic_from_buffer (leading_bytes file) = "image/jpeg" ->
          _validate_file file max_size_mb = inr (UploadFile.seek 0 file))).
Proof.
  intros Hsize Hmax.
  assert (Hlarge : too_large file (max_size_mb * 1024 * 1024) = true
                   <-> n > max_size_mb * 1024 * 1024).
  { rewrite (too_large_sized file n _ Hsize).
    rewrite andb_true_iff, negb_true_iff, Z.eqb_neq, Z.gtb_gt. lia. }
  split; [|split; [|split]].
  - rewrite fails_413_iff. exact Hlarge.
  - intros Hn. rewrite validate_file_cases.
    apply Hlarge in Hn. now rewrite Hn.
  - intros -> ->. rewrite validate_file_cases.
    rewrite (too_large_sized file _ _ Hsize). reflexivity.
  - intros -> ->. split.
    + rewrite fails_413_iff, Hlarge. lia.
    + intros Hjpeg. rewrite validate_file_cases.
      rewrite (too_large_sized file _ _ Hsize), Hjpeg. reflexivity.
Qed.

(** C7, as the code has it. For a file that passes the size check,
    [_validate_file] raises the 400 "Unsupported file type" error exactly
    when the type sniffed from the leading 2048 bytes is outside the eight
    allowed types, and returns with the stream rewound otherwise. The
    verdict is decided by the declared size and those bytes alone: two files
    that agree on them get the same verdict whatever their [filename] and
    [content_type]. So content sniffed as plain text is rejected under any
    name. *)
Theorem type_check_by_content file max_size_mb :
  too_large file (max_size_mb * 1024 * 1024) = false ->
  (allowed_image_types ++ allowed_video_types)%list
  = ["image/jpeg"; "image/png"; "image/gif"; "image/webp";
     "video/mp4"; "video/webm"; "video/ogg"; "video/quicktime"]
  /\ (fails_with 400 (_validate_file file max_size_mb)
      <-> Py.mem (magic_from_buffer (leading_bytes file))
                 (allowed_image_types ++ allowed_video_types)%list = false)
  /\ (Py.mem (magic_from_buffer (leading_bytes file))
             (allowed_image_types ++ allowed_video_types)%list = false ->
      _validate_file file max_size_mb
      = inl (unsupported_error (magic_from_buffer (leading_bytes file))))
  /\ (Py.mem (magic_from_buffer (leading_bytes file))
             (allowed_image_types ++ allowed_video_types)%list = true ->
      _validate_file file max_size_mb = inr (UploadFile.seek 0 file))
  /\ (forall file',
        UploadFile.size file' = UploadFile.size file ->
        leading_bytes file' = leading_bytes file ->
        verdict (_validate_file file' max_size_mb)
        = verdict (_validate_file file max_size_mb))
  /\ (magic_from_buffer (leading_bytes file) = "text/plain" ->
      _validate_file file max_size_mb
      = inl (HTTPException.mk 400
               "Unsupported file type: text/plain. Allowed: image/jpeg, image/png, image/gif, image/webp, video/mp4, video/webm, video/ogg, video/quicktime")).
Proof.
  intros Hfits.
  split; [reflexivity|].
  split; [|split; [|split; [|split]]].
  - rewrite validate_file_cases, Hfits.
    destruct (Py.mem _ _); cbn; split; congruence || contradiction || auto.
  - intros Hout. now rewrite validate_file_cases, Hfits, Hout.
  - intros Hin. now rewrite validate_file_cases, Hfits, Hin.
  - intros file' Hsize Hlead.
    rewrite !validate_file_cases, Hlead.
    replace (too_large file' (max_size_mb * 1024 * 1024))
      with (too_large file (max_size_mb * 1024 * 1024))
      by (unfold too_large; now rewrite Hsize).
    destruct (too_large file _); [reflexivity|].
    destruct (Py.mem _ _); reflexivity.
  - intros Htext. rewrite validate_file_cases, Hfits, Htext. reflexivity.
Qed.

(** C9. A file whose declared size is [None] or [0] never gets the 413
    error, for any limit and any stream content; a file whose declared size
    is a non-zero number gets it exactly when that number exceeds the
    limit. *)
Theorem unsized_file_skips_size_check file max_size_mb :
  (UploadFile.size file = None \/ UploadFile.size file = Some 0 ->
   ~ fails_with 413 (_validate_file file max_size_mb))
  /\ (forall n,
        UploadFile.size file = Some n -> n <> 0 ->
        (fails_with 413 (_validate_file file max_size_mb)
         <-> n > max_size_mb * 1024 * 1024)).
Proof.
  split.
  - intros Hsize. rewrite fails_413_iff.
    rewrite (too_large_unsized file _ Hsize). discriminate.
  - intros n Hsize Hn. rewrite fails_413_iff.
    rewrite (too_large_sized file n _ Hsize).
    rewrite andb_true_iff, negb_true_iff, Z.eqb_neq, Z.gtb_gt. tauto.
Qed.

(** *** The standalone upload *)

Lemma bind_ret {A} (c : M A) w : bind c (fun a => ret a) w = c w.
Proof.
  unfold bind, ret. destruct (c w) as [[e|a] w']; reflexivity.
Qed.

Lemma upload_file_outcome self file folder w w' :
  tick w' = tick w ->
  outcome (upload_file self file folder w')
  = outcome (upload_file self file folder w).
Proof.
  intros Htick. unfold upload_file, bind, lift, outcome.
  destruct (_validate_file file 10) as [e|file0]; [reflexivity|].
  destruct (MediaService.use_cloudinary self).
  - unfold _upload_to_cloudinary. rewrite Htick.
    destruct (cloudinary_upload _ _ _); reflexivity.
  - unfold _upload_to_local. rewrite Htick.
    destruct (MediaService.upload_dir self); [|reflexivity].
    destruct (disk_fault _ _); [reflexivity|].
    destruct (disk_fault _ _); reflexivity.
Qed.

(* ================================================================= *)
(** ** Further properties of the handlers and of the media service *)

(** *** Rows other than the one written *)

Lemma lookup_update_other rows key row :
  Item.id row <> key ->
  Session.lookup (Session.apply rows (Update row)) key
  = Session.lookup rows key.
Proof.
  intros Hother.
  induction rows as [|r rows IH]; cbn; [reflexivity|].
  destruct (N.eqb_spec (Item.id r) (Item.id row)) as [Hsame|Hdiff].
  - destruct (N.eqb_spec (Item.id row) key); [contradiction|].
    destruct (N.eqb_spec (Item.id r) key); [congruence|]. exact IH.
  - destruct (N.eqb_spec (Item.id r) key); [reflexivity|]. exact IH.
Qed.

Lemma lookup_remove_other rows key gone :
  gone <> key ->
  Session.lookup (Session.apply rows (Remove gone)) key
  = Session.lookup rows key.
Proof.
  intros Hother.
  induction rows as [|r rows IH]; cbn; [reflexivity|].
  destruct (N.eqb_spec (Item.id r) gone) as [Hsame|Hdiff]; cbn.
  - destruct (N.eqb_spec (Item.id r) key); [congruence|]. exact IH.
  - destruct (N.eqb_spec (Item.id r) key); [reflexivity|]. exact IH.
Qed.

(** [add_media_to_item] on a found item, step by step. *)
Lemma add_media_found current_user id file media_service w item :
  Session.lookup (db w) id = Some item ->
  add_media_to_item current_user id file media_service w
  = if denied current_user item then (inl not_enough_permissions, w)
    else
      match upload_file media_service file "items" w with
      | (inl e, w1) => (inl e, w1)
      | (inr r, w1) =>
          let w2 := mkWorld (fold_left Session.apply
                               (pending w1 ++ [Update (record_media item r)])
                               (db w1))
                            [] (disk w1) (tick w1) in
          match Session.lookup (db w2) (Item.id (record_media item r)) with
          | Some row => (inr row, w2)
          | None => (inl (HTTPException.mk 500 "Internal Server Error"), w2)
          end
      end.
Proof.
  intros Hfound. unfold add_media_to_item, bind, Session.get. cbn [db].
  rewrite Hfound. destruct (denied current_user item); [reflexivity|].
  destruct (upload_file media_service file "items" w) as [[e|r] w1];
    [reflexivity|].
  unfold Session.add, Session.commit, Session.refresh, ret.
  cbn [db pending disk tick]. clear Hfound.
  match goal with
  | |- context [match ?found with Some _ => _ | None => _ end] =>
      destruct found
  end; reflexivity.
Qed.

(** No error of the media service is the permission error. *)
Lemma upload_file_error_is_not_permission self file folder w :
  outcome (upload_file self file folder w) <> inl not_enough_permissions.
Proof.
  unfold upload_file, bind, lift, outcome.
  rewrite validate_file_cases.
  destruct (too_large file _); [cbn; discriminate|].
  destruct (Py.mem _ _); [|cbn; discriminate].
  destruct (MediaService.use_cloudinary self).
  - unfold _upload_to_cloudinary.
    destruct (cloudinary_upload _ _ _); cbn; discriminate.
  - unfold _upload_to_local.
    destruct (MediaService.upload_dir self); [|cbn; discriminate].
    destruct (disk_fault _ _); [cbn; discriminate|].
    destruct (disk_fault _ _); cbn; discriminate.
Qed.

(** *** Errors that come before any work *)

(** X1. When no row has the requested id, each per-item route raises the
    404 "Item not found" error and leaves the world as it was, whoever asks:
    the lookup comes before the permission check, before the upload and
    before any write. *)
Theorem missing_item_is_not_found
    current_user id file (item_in : ItemUpdate) media_service w :
  Session.lookup (db w) id = None ->
  read_item current_user id w = (inl not_found, w)
  /\ add_media_to_item current_user id file media_service w
     = (inl not_found, w)
  /\ update_item current_user id item_in w = (inl not_found, w)
  /\ delete_item current_user id media_service w = (inl not_found, w).
Proof.
  intros Hmissing.
  unfold read_item, add_media_to_item, update_item, delete_item, bind,
    Session.get. cbn [db].
  rewrite Hmissing. repeat split; reflexivity.
Qed.

(** X2. For a found item, [add_media_to_item] raises the permission error
    exactly when the requester is neither a superuser nor the owner, and
    then the world is left as it was: the file of a refused requester is
    neither validated nor sent to any backend. *)
Theorem add_media_gate current_user id file media_service w item :
  Session.lookup (db w) id = Some item ->
  (outcome (add_media_to_item current_user id file media_service w)
   = inl not_enough_permissions
   <-> ~ (User.is_superuser current_user = true
          \/ User.id current_user = Item.owner_id item))
  /\ (~ (User.is_superuser current_user = true
         \/ User.id current_user = Item.owner_id item) ->
      add_media_to_item current_user id file media_service w
      = (inl not_enough_permissions, w)).
Proof.
  intros Hfound.
  rewrite (add_media_found current_user id file media_service w item Hfound).
  rewrite <- denied_true_iff.
  destruct (denied current_user item) eqn:Hden.
  - split; [split; reflexivity|reflexivity].
  - split; [|discriminate].
    split; [|discriminate]. intros Hperm. exfalso.
    pose proof (upload_file_error_is_not_permission media_service file
                  "items" w) as Hup.
    unfold outcome in *.
    destruct (upload_file media_service file "items" w) as [[e|r] w1];
      cbn [fst] in *; [congruence|].
    cbv zeta in Hperm.
    match type of Hperm with
    | context [match ?found with Some _ => _ | None => _ end] =>
        destruct found
    end; cbn [fst] in Hperm; discriminate.
Qed.

(** X3. A file that validation refuses reaches no backend: [upload_file],
    [upload_media] and [add_media_to_item] leave the whole world as it was,
    disk and external events included, and the first two raise the
    validation error. *)
Theorem rejected_file_reaches_no_backend
    current_user id file folder media_service w e :
  _validate_file file 10 = inl e ->
  upload_file media_service file folder w = (inl e, w)
  /\ upload_media file media_service w = (inl e, w)
  /\ world_of (add_media_to_item current_user id file media_service w) = w
  /\ exists e', outcome (add_media_to_item current_user id file media_service w)
                = inl e'.
Proof.
  intros Hrejected.
  pose proof (upload_file_rejected media_service file folder w e Hrejected)
    as Hup.
  pose proof (upload_file_rejected media_service file "items" w e Hrejected)
    as Hup'.
  split; [exact Hup|].
  split; [unfold upload_media; rewrite bind_ret; exact Hup'|].
  unfold world_of, outcome.
  destruct (Session.lookup (db w) id) as [item|] eqn:Hfound.
  - rewrite (add_media_found current_user id file media_service w item Hfound).
    destruct (denied current_user item); [cbn; eauto|].
    rewrite Hup'. cbn. eauto.
  - unfold add_media_to_item, bind, Session.get. cbn [db].
    rewrite Hfound. cbn. eauto.
Qed.

(** *** The upload backends *)

Lemma validate_accepts file max_size_mb :
  verdict (_validate_file file max_size_mb) = None ->
  _validate_file file max_size_mb = inr (UploadFile.seek 0 file).
Proof.
  rewrite validate_file_cases.
  destruct (too_large file _); [discriminate|].
  destruct (Py.mem _ _); [reflexivity|discriminate].
Qed.

Lemma validate_returns_rewound file max_size_mb file' :
  _validate_file file max_size_mb = inr file' ->
  file' = UploadFile.seek 0 file.
Proof.
  rewrite validate_file_cases.
  destruct (too_large file _); [discriminate|].
  destruct (Py.mem _ _); [|discriminate].
  now intros [= <-].
Qed.

Lemma append_empty (s : string) : s ++ "" = s.
Proof.
  induction s as [|c s IH]; cbn; [reflexivity|]. now rewrite IH.
Qed.

Lemma disk_read_written d path content :
  disk_read (disk_write d path content) path = Some content.
Proof.
  unfold disk_read, disk_write. cbn. now rewrite String.eqb_refl.
Qed.

Lemma disk_read_filtered d path other :
  other <> path ->
  disk_read (filter (fun e => negb (String.eqb (fst e) path)) d) other
  = disk_read d other.
Proof.
  intros Hother. unfold disk_read.
  induction d as [|[p c] d IH]; cbn; [reflexivity|].
  destruct (String.eqb_spec p path) as [->|Hp]; cbn.
  - destruct (String.eqb_spec path other); [congruence|]. exact IH.
  - destruct (String.eqb_spec p other); [reflexivity|]. exact IH.
Qed.

Lemma disk_read_write_other d path content other :
  other <> path ->
  disk_read (disk_write d path content) other = disk_read d other.
Proof.
  intros Hother. unfold disk_write.
  transitivity (disk_read (filter (fun e => negb (String.eqb (fst e) path)) d)
                          other).
  - unfold disk_read at 1. cbn.
    destruct (String.eqb_spec path other); [congruence|]. reflexivity.
  - now apply disk_read_filtered.
Qed.

(** X4. On the Cloudinary backend an accepted file is sent whole: the host
    receives the stream from its first byte, wherever the read position was
    when the request came in, with the folder. Its answer becomes the result
    field by field, an exception [e] becomes the 500 error
    "Cloudinary upload failed: e", and either way the local disk and the
    database are not touched. *)
Theorem cloud_upload_forwards_stream self file folder w :
  MediaService.use_cloudinary self = true ->
  verdict (_validate_file file 10) = None ->
  upload_file self file folder w
  = (match cloudinary_upload (tick w) (UploadFile.file file) folder with
     | inr result =>
         inr (UploadResult.mk
                (CloudinaryResponse.secure_url result)
                (CloudinaryResponse.public_id result)
                (CloudinaryResponse.resource_type result)
                (CloudinaryResponse.format result)
                (CloudinaryResponse.width result)
                (CloudinaryResponse.height result)
                (CloudinaryResponse.bytes result))
     | inl e => inl (HTTPException.mk 500 ("Cloudinary upload failed: " ++ e))
     end,
     mkWorld (db w) (pending w) (disk w) (S (tick w))).
Proof.
  intros Hcloud Haccepted.
  unfold upload_file, bind, lift.
  rewrite (validate_accepts file 10 Haccepted), Hcloud.
  unfold _upload_to_cloudinary. cbn [UploadFile.read_all UploadFile.seek fst
    UploadFile.pos UploadFile.file skipn].
  destruct (cloudinary_upload _ _ _); reflexivity.
Qed.

(** [upload_file] on the local backend, for an accepted file and a disk
    without faults. *)
Lemma upload_file_local_run self file folder w upload_dir :
  MediaService.use_cloudinary self = false ->
  MediaService.upload_dir self = Some upload_dir ->
  verdict (_validate_file file 10) = None ->
  (forall path, disk_fault (tick w) path = None) ->
  exists result,
    upload_file self file folder w
    = (inr result,
       mkWorld (db w) (pending w)
         (disk_write (disk w)
            ((upload_dir ++ "/" ++ folder) ++ "/"
             ++ uuid4 (tick w) ++ stored_extension file)
            (UploadFile.file file))
         (S (tick w)))
    /\ UploadResult.public_id result
       = Some ((upload_dir ++ "/" ++ folder) ++ "/"
               ++ uuid4 (tick w) ++ stored_extension file)
    /\ UploadResult.url result
       = Some ("/uploads/" ++ folder ++ "/"
               ++ uuid4 (tick w) ++ stored_extension file)
    /\ UploadResult.bytes result
       = Some (Z.of_nat (List.length (UploadFile.file file))).
Proof.
  intros Hlocal Hdir Haccepted Hsound.
  unfold upload_file, bind, lift.
  rewrite (validate_accepts file 10 Haccepted), Hlocal.
  unfold _upload_to_local. rewrite Hdir, !Hsound.
  cbn [UploadFile.read_all UploadFile.seek fst UploadFile.pos UploadFile.file
       UploadFile.filename UploadFile.content_type skipn].
  eexists. split; [reflexivity|].
  cbn [UploadResult.public_id UploadResult.url UploadResult.bytes].
  repeat split.
Qed.

(** X5. On the local backend as [__init__] builds it, an accepted file, the
    callers' folder ["items"] and a disk without faults give a round trip.
    The stored name is a fresh uuid followed by the suffix of the client's
    file name (nothing when there is no name); the result's [public_id] is
    [uploads/items/<name>] and its url [/uploads/items/<name>]; the file at
    that path holds the whole stream from its first byte; the reported byte
    count is the length of that stream; every other file of the disk, the
    database and the staged changes are as they were. *)
Theorem local_upload_round_trip self file w :
  MediaService.use_cloudinary self = false ->
  MediaService.upload_dir self = Some "uploads" ->
  verdict (_validate_file file 10) = None ->
  (forall path, disk_fault (tick w) path = None) ->
  exists result w',
    upload_file self file "items" w = (inr result, w')
    /\ UploadResult.public_id result
       = Some ("uploads/items/" ++ uuid4 (tick w) ++ stored_extension file)
    /\ UploadResult.url result
       = Some ("/uploads/items/" ++ uuid4 (tick w) ++ stored_extension file)
    /\ (forall name,
          UploadFile.filename file = Some name -> name <> "" ->
          stored_extension file = path_suffix name)
    /\ (Py.truthy_str (UploadFile.filename file) = false ->
        stored_extension file = "")
    /\ UploadResult.bytes result
       = Some (Z.of_nat (List.length (UploadFile.file file)))
    /\ disk_read (disk w')
         ("uploads/items/" ++ uuid4 (tick w) ++ stored_extension file)
       = Some (UploadFile.file file)
    /\ (forall other,
          other <> "uploads/items/" ++ uuid4 (tick w) ++ stored_extension file ->
          disk_read (disk w') other = disk_read (disk w) other)
    /\ db w' = db w
    /\ pending w' = pending w.
Proof.
  intros Hlocal Hdir Haccepted Hsound.
  destruct (upload_file_local_run self file "items" w "uploads"
              Hlocal Hdir Haccepted Hsound)
    as (result & Hrun & Hpath & Hurl & Hbytes).
  exists result. eexists. split; [exact Hrun|].
  split; [exact Hpath|]. split; [exact Hurl|].
  split; [|split; [|split; [exact Hbytes|]]].
  - intros name Hname Hnonempty. unfold stored_extension. rewrite Hname.
    destruct name; [contradiction|reflexivity].
  - intros Hnameless. unfold stored_extension.
    destruct (UploadFile.filename file) as [name|]; [|reflexivity].
    now rewrite Hnameless.
  - cbn [disk db pending].
    split; [apply disk_read_written|].
    split; [|split; reflexivity].
    intros other Hother. now apply disk_read_write_other.
Qed.

(** *** The standalone upload *)

(** C10. The upload-media route validates the file and uploads it, and that
    is all it does. Its answer is the same for every requester. A file that
    validation refuses gets the validation error and reaches no backend. An
    accepted file goes to the configured backend: on Cloudinary the host is
    called with the whole stream and the folder ["items"], and its response,
    or its failure as a 500 error, is the answer; on the local backend, with
    a disk without faults, the stream is stored under [uploads/items/] and
    the answer names that file. In every case nothing is staged or
    committed, and the outcome is the same over any item table, an empty one
    included, given the same state of the external events. *)
Theorem upload_media_ignores_requester file media_service w :
  (forall current_user current_user',
     router current_user media_service (PostUploadMedia file) w
     = router current_user' media_service (PostUploadMedia file) w)
  /\ upload_media file media_service w
     = upload_file media_service file "items" w
  /\ (forall e,
        _validate_file file 10 = inl e ->
        upload_media file media_service w = (inl e, w))
  /\ (verdict (_validate_file file 10) = None ->
      MediaService.use_cloudinary media_service = true ->
      upload_media file media_service w
      = (match cloudinary_upload (tick w) (UploadFile.file file) "items" with
         | inr result =>
             inr (UploadResult.mk
                    (CloudinaryResponse.secure_url result)
                    (CloudinaryResponse.public_id result)
                    (CloudinaryResponse.resource_type result)
                    (CloudinaryResponse.format result)
                    (CloudinaryResponse.width result)
                    (CloudinaryResponse.height result)
                    (CloudinaryResponse.bytes result))
         | inl e =>
             inl (HTTPException.mk 500 ("Cloudinary upload failed: " ++ e))
         end,
         mkWorld (db w) (pending w) (disk w) (S (tick w))))
  /\ (verdict (_validate_file file 10) = None ->
      MediaService.use_cloudinary media_service = false ->
      MediaService.upload_dir media_service = Some "uploads" ->
      (forall path, disk_fault (tick w) path = None) ->
      exists result w',
        upload_media file media_service w = (inr result, w')
        /\ UploadResult.public_id result
           = Some ("uploads/items/" ++ uuid4 (tick w) ++ stored_extension file)
        /\ UploadResult.url result
           = Some ("/uploads/items/" ++ uuid4 (tick w)
                   ++ stored_extension file)
        /\ UploadResult.bytes result
           = Some (Z.of_nat (List.length (UploadFile.file file)))
        /\ disk_read (disk w')
             ("uploads/items/" ++ uuid4 (tick w) ++ stored_extension file)
           = Some (UploadFile.file file))
  /\ db (world_of (upload_media file media_service w)) = db w
  /\ pending (world_of (upload_media file media_service w)) = pending w
  /\ (forall w',
        tick w' = tick w ->
        outcome (upload_media file media_service w')
        = outcome (upload_media file media_service w)).
Proof.
  assert (Hsame : forall w0, upload_media file media_service w0
                             = upload_file media_service file "items" w0).
  { intros w0. unfold upload_media. apply bind_ret. }
  split; [reflexivity|].
  split; [apply Hsame|].
  split; [|split; [|split]].
  - intros e Hrejected. rewrite Hsame. now apply upload_file_rejected.
  - intros Haccepted Hcloud. rewrite Hsame.
    unfold upload_file, bind, lift.
    rewrite (validate_accepts file 10 Haccepted), Hcloud.
    unfold _upload_to_cloudinary.
    cbn [UploadFile.read_all UploadFile.seek fst UploadFile.pos
         UploadFile.file skipn].
    destruct (cloudinary_upload _ _ _); reflexivity.
  - intros Haccepted Hlocal Hdir Hsound. rewrite Hsame.
    destruct (upload_file_local_run media_service file "items" w "uploads"
                Hlocal Hdir Haccepted Hsound)
      as (result & Hrun & Hpath & Hurl & Hbytes).
    exists result. eexists. split; [exact Hrun|].
    split; [exact Hpath|]. split; [exact Hurl|]. split; [exact Hbytes|].
    cbn [disk]. apply disk_read_written.
  - rewrite Hsame.
    split; [apply upload_file_frame|].
    split; [apply upload_file_frame|].
    intros w' Htick. rewrite Hsame. now apply upload_file_outcome.
Qed.

(** X6. On the local backend the kind of an upload is the client's word:
    the result is an image when the declared content type starts with
    [image/] and a video in every other case, a missing content type
    included, whatever the sniffed type was. The result is never of a third
    kind and carries no dimensions. *)
Theorem local_resource_type_is_declared self file folder w result w' :
  MediaService.use_cloudinary self = false ->
  upload_file self file folder w = (inr result, w') ->
  UploadResult.resource_type result
  = Some (if Py.truthy_str (UploadFile.content_type file)
             && match UploadFile.content_type file with
                | Some ct => Py.startswith ct "image/"
                | None => false
                end
          then "image" else "video")
  /\ (UploadResult.resource_type result = Some "image"
      \/ UploadResult.resource_type result = Some "video")
  /\ UploadResult.width result = None
  /\ UploadResult.height result = None.
Proof.
  intros Hlocal Hrun.
  unfold upload_file, bind, lift in Hrun.
  destruct (_validate_file file 10) as [e|file'] eqn:Hvalid; [discriminate|].
  apply validate_returns_rewound in Hvalid. subst file'.
  rewrite Hlocal in Hrun. unfold _upload_to_local in Hrun.
  destruct (MediaService.upload_dir self); [|discriminate].
  destruct (disk_fault _ _); [discriminate|].
  destruct (disk_fault _ _); [discriminate|].
  injection Hrun as <- _.
  cbn [UploadResult.resource_type UploadResult.width UploadResult.height
       UploadFile.seek UploadFile.content_type].
  split; [reflexivity|]. split; [|split; reflexivity].
  destruct (_ && _); auto.
Qed.

(** X7. A local upload whose file comes without a name, or with an empty
    one, is stored under the bare uuid and reports the format "unknown". *)
Theorem nameless_upload_is_unknown self file folder w result w' :
  MediaService.use_cloudinary self = false ->
  Py.truthy_str (UploadFile.filename file) = false ->
  upload_file self file folder w = (inr result, w') ->
  UploadResult.format result = Some "unknown"
  /\ UploadResult.url result
     = Some ("/uploads/" ++ folder ++ "/" ++ uuid4 (tick w)).
Proof.
  intros Hlocal Hnameless Hrun.
  unfold upload_file, bind, lift in Hrun.
  destruct (_validate_file file 10) as [e|file'] eqn:Hvalid; [discriminate|].
  apply validate_returns_rewound in Hvalid. subst file'.
  rewrite Hlocal in Hrun. unfold _upload_to_local in Hrun.
  destruct (MediaService.upload_dir self); [|discriminate].
  destruct (disk_fault _ _); [discriminate|].
  cbn [UploadFile.seek UploadFile.filename] in Hrun.
  assert (Hext : match UploadFile.filename file with
                 | Some name =>
                     if Py.truthy_str (Some name) then path_suffix name else ""
                 | None => ""
                 end = "").
  { destruct (UploadFile.filename file) as [name|]; [|reflexivity].
    now rewrite Hnameless. }
  rewrite Hext in Hrun.
  destruct (disk_fault _ _); [discriminate|].
  injection Hrun as <- _.
  cbn [UploadResult.format UploadResult.url Py.truthy_str].
  split; [reflexivity|]. now rewrite append_empty.
Qed.

(** *** Deleting stored media *)

Lemma disk_exists_written d path content :
  disk_exists (disk_write d path content) path = true.
Proof.
  unfold disk_exists, disk_write. cbn. now rewrite String.eqb_refl.
Qed.

Lemma disk_exists_unlinked d path :
  disk_exists (disk_unlink d path) path = false.
Proof.
  unfold disk_exists, disk_unlink.
  induction d as [|[p c] d IH]; cbn; [reflexivity|].
  destruct (String.eqb_spec p path) as [->|Hp]; cbn; [exact IH|].
  destruct (String.eqb_spec p path); [contradiction|]. exact IH.
Qed.

Lemma disk_read_unlinked d path :
  disk_read (disk_unlink d path) path = None.
Proof.
  unfold disk_read, disk_unlink.
  induction d as [|[p c] d IH]; cbn; [reflexivity|].
  destruct (String.eqb_spec p path) as [->|Hp]; cbn; [exact IH|].
  destruct (String.eqb_spec p path); [contradiction|]. exact IH.
Qed.

(** X8. What a local upload stored, [delete_file] removes: called on the
    result's [public_id] with a disk without faults it answers [True] and
    the file is gone; called once more it answers [False]. *)
Theorem local_delete_after_upload self file folder w result w1 path :
  MediaService.use_cloudinary self = false ->
  upload_file self file folder w = (inr result, w1) ->
  UploadResult.public_id result = Some path ->
  (forall n, disk_fault n path = None) ->
  exists w2,
    delete_file self path w1 = (inr true, w2)
    /\ disk_read (disk w2) path = None
    /\ outcome (delete_file self path w2) = inr false.
Proof.
  intros Hlocal Hrun Hpath Hsound.
  assert (Hstored : disk_exists (disk w1) path = true).
  { unfold upload_file, bind, lift in Hrun.
    destruct (_validate_file file 10) as [e|file']; [discriminate|].
    rewrite Hlocal in Hrun. unfold _upload_to_local in Hrun.
    destruct (MediaService.upload_dir self); [|discriminate].
    destruct (disk_fault _ _); [discriminate|].
    destruct (disk_fault _ _); [discriminate|].
    injection Hrun as <- <-. cbn in Hpath. injection Hpath as <-.
    cbn [disk]. apply disk_exists_written. }
  unfold delete_file, outcome. rewrite Hlocal, Hsound, Hstored.
  eexists. split; [reflexivity|].
  cbn [disk tick fst]. split; [apply disk_read_unlinked|].
  now rewrite Hsound, disk_exists_unlinked.
Qed.


(** *** Building the service *)

Lemma truthy_str_iff (s : option string) :
  Py.truthy_str s = true <-> exists x, s = Some x /\ x <> "".
Proof.
  destruct s as [[|c x]|]; cbn.
  - split; [discriminate|]. intros (x & [= <-] & Hx). contradiction.
  - split; [|reflexivity]. intros _. eexists. split; [reflexivity|discriminate].
  - split; [discriminate|]. intros (x & Hx & _). discriminate.
Qed.

(** X10. [__init__] selects the Cloudinary backend exactly when the cloud
    name, the key and the secret are all set to non-empty strings; with any
    of them missing or empty it selects the local backend, rooted at
    [uploads]. *)
Theorem init_selects_backend settings :
  (MediaService.use_cloudinary (__init__ settings) = true
   <-> (exists name, Settings.CLOUDINARY_CLOUD_NAME settings = Some name
                     /\ name <> "")
       /\ (exists key, Settings.CLOUDINARY_API_KEY settings = Some key
                       /\ key <> "")
       /\ (exists secret, Settings.CLOUDINARY_API_SECRET settings = Some secret
                          /\ secret <> ""))
  /\ (MediaService.use_cloudinary (__init__ settings) = false ->
      MediaService.upload_dir (__init__ settings) = Some "uploads").
Proof.
  rewrite <- !truthy_str_iff. unfold __init__. cbn [forallb].
  destruct (Py.truthy_str (Settings.CLOUDINARY_CLOUD_NAME settings));
    destruct (Py.truthy_str (Settings.CLOUDINARY_API_KEY settings));
    destruct (Py.truthy_str (Settings.CLOUDINARY_API_SECRET settings));
    cbn; repeat split; try tauto; try discriminate;
    intros (? & ? & ?); discriminate.
Qed.

(** *** Listing *)

Lemma read_items_run current_user skip limit w :
  read_items current_user skip limit w
  = (inr (ItemsPublic.mk
            (firstn (Z.to_nat limit)
               (skipn (Z.to_nat skip)
                  (if User.is_superuser current_user then db w
                   else filter (fun i => (Item.owner_id i
                                          =? User.id current_user)%N) (db w))))
            (Z.of_nat
               (List.length
                  (if User.is_superuser current_user then db w
                   else filter (fun i => (Item.owner_id i
                                          =? User.id current_user)%N) (db w))))),
     w).
Proof.
  unfold read_items.
  destruct (User.is_superuser current_user);
    unfold bind, Session.count_where, Session.select_where, ret;
    cbn [db]; rewrite ?filter_true; reflexivity.
Qed.

(** X11. The size of a page follows from the count, whatever the order of
    the rows: for a non-negative offset and limit, [read_items] returns
    exactly [min limit (max 0 (count - skip))] rows, so an offset at or past
    the count gives an empty page; the count it reports is the same for
    every offset and limit; and listing changes nothing. *)
Theorem read_items_page_size current_user skip limit w :
  0 <= skip -> 0 <= limit ->
  exists data count,
    read_items current_user skip limit w
    = (inr (ItemsPublic.mk data count), w)
    /\ Z.of_nat (List.length data) = Z.min limit (Z.max 0 (count - skip))
    /\ (count <= skip -> data = [])
    /\ (forall skip' limit',
          0 <= skip' -> 0 <= limit' ->
          exists data',
            read_items current_user skip' limit' w
            = (inr (ItemsPublic.mk data' count), w)).
Proof.
  intros Hskip Hlimit.
  do 2 eexists. rewrite read_items_run.
  split; [reflexivity|].
  set (scope := if User.is_superuser current_user then db w else _).
  assert (Hsize : Z.of_nat (List.length
                              (firstn (Z.to_nat limit)
                                 (skipn (Z.to_nat skip) scope)))
                  = Z.min limit
                      (Z.max 0 (Z.of_nat (List.length scope) - skip))).
  { rewrite length_firstn, length_skipn. lia. }
  split; [exact Hsize|]. split.
  - intros Hpast.
    destruct (firstn (Z.to_nat limit) (skipn (Z.to_nat skip) scope))
      as [|x rest]; [reflexivity|].
    cbn [List.length] in Hsize. lia.
  - intros skip' limit' _ _. eexists. rewrite read_items_run. reflexivity.
Qed.

Lemma lookup_unique rows item :
  NoDup (map Item.id rows) ->
  In item rows ->
  Session.lookup rows (Item.id item) = Some item.
Proof.
  induction rows as [|r rows IH]; intros Hnodup Hin; [contradiction|].
  cbn in Hnodup. inversion Hnodup as [|? ? Hfresh Hrest]; subst.
  cbn. destruct (N.eqb_spec (Item.id r) (Item.id item)) as [Hsame|Hdiff].
  - destruct Hin as [->|Hin]; [reflexivity|].
    exfalso. apply Hfresh. rewrite Hsame. now apply in_map.
  - destruct Hin as [->|Hin]; [contradiction|]. now apply IH.
Qed.

(** X12. Whatever a listing returns, the requester may read: each returned
    row is a row of the table that passes the per-item permission check for
    that requester, and, the ids of the table being distinct, [read_item] on
    its id returns that very row. *)
Theorem listed_items_are_readable current_user skip limit w listing w' item :
  read_items current_user skip limit w = (inr listing, w') ->
  In item (ItemsPublic.data listing) ->
  In item (db w)
  /\ denied current_user item = false
  /\ (NoDup (map Item.id (db w)) ->
      read_item current_user (Item.id item) w = (inr item, w)).
Proof.
  intros Hrun Hin.
  rewrite read_items_run in Hrun. injection Hrun as <- _.
  cbn [ItemsPublic.data] in Hin. apply page_in in Hin.
  assert (Hrow : In item (db w) /\ denied current_user item = false).
  { unfold denied.
    destruct (User.is_superuser current_user); [now split|].
    apply filter_In in Hin. destruct Hin as [Hin Hown].
    split; [exact Hin|]. now rewrite Hown. }
  destruct Hrow as [Hrow Hallowed].
  split; [exact Hrow|]. split; [exact Hallowed|].
  intros Hnodup.
  rewrite (read_item_found current_user (Item.id item) w item
             (lookup_unique (db w) item Hnodup Hrow)).
  now rewrite Hallowed.
Qed.

(** *** What a write changes *)

Lemma add_media_world_fresh current_user id file media_service w item r w1 :
  Session.lookup (db w) id = Some item ->
  denied current_user item = false ->
  upload_file media_service file "items" w = (inr r, w1) ->
  pending (world_of (add_media_to_item current_user id file media_service w))
  = []
  /\ db (world_of (add_media_to_item current_user id file media_service w))
     = fold_left Session.apply (pending w1 ++ [Update (record_media item r)])
                 (db w1).
Proof.
  intros Hfound Hallowed Hup.
  rewrite (add_media_found current_user id file media_service w item Hfound).
  rewrite Hallowed, Hup. cbv zeta. unfold world_of.
  match goal with
  | |- context [match ?found with Some _ => _ | None => _ end] =>
      destruct found
  end; split; reflexivity.
Qed.

(** X13. A per-item write changes the rows of one id only: after
    [add_media_to_item], [update_item] or [delete_item] on [id], whatever the
    outcome, looking up any other id gives what it gave before. For
    [update_item] this supposes updates that keep the primary key. *)
Theorem writes_touch_one_id
    current_user id file (item_in : ItemUpdate) media_service w key :
  pending w = [] ->
  key <> id ->
  (forall item, Item.id (sqlmodel_update item item_in) = Item.id item) ->
  Session.lookup
    (db (world_of (add_media_to_item current_user id file media_service w))) key
  = Session.lookup (db w) key
  /\ Session.lookup
       (db (world_of (update_item current_user id item_in w))) key
     = Session.lookup (db w) key
  /\ Session.lookup
       (db (world_of (delete_item current_user id media_service w))) key
     = Session.lookup (db w) key.
Proof.
  intros Hfresh Hother Hkeeps.
  destruct (Session.lookup (db w) id) as [item|] eqn:Hfound.
  - pose proof (lookup_id _ _ _ Hfound) as Hid.
    rewrite (update_item_found current_user id item_in w item Hfound).
    rewrite (delete_item_found current_user id media_service w item Hfound).
    destruct (denied current_user item) eqn:Hden.
    + rewrite (add_media_found current_user id file media_service w item
                 Hfound), Hden.
      repeat split.
    + split; [|split].
      * pose proof (upload_file_frame media_service file "items" w)
          as [Hdb Hpend].
        destruct (upload_file media_service file "items" w) as [[e|r] w1]
          eqn:Hup; unfold world_of in Hdb, Hpend; cbn [snd] in Hdb, Hpend.
        -- rewrite (add_media_found current_user id file media_service w item
                      Hfound), Hden, Hup.
           unfold world_of. cbn [snd]. now rewrite Hdb.
        -- destruct (add_media_world_fresh current_user id file media_service
                       w item r w1 Hfound Hden Hup) as [_ ->].
           rewrite Hpend, Hfresh, Hdb. cbn [app fold_left].
           apply lookup_update_other. rewrite record_media_id. congruence.
      * cbv zeta. unfold world_of. rewrite Hfresh. cbn [app fold_left].
        match goal with
        | |- context [match ?found with Some _ => _ | None => _ end] =>
            destruct found
        end; cbn [snd db];
          apply lookup_update_other; rewrite Hkeeps; congruence.
      * unfold world_of. cbn [snd db]. rewrite Hfresh. cbn [app fold_left].
        apply lookup_remove_other. congruence.
  - unfold add_media_to_item, update_item, delete_item, bind, Session.get,
      world_of.
    cbn [db]. rewrite Hfound. repeat split.
Qed.

(** X14. A deleted item is gone for everyone: after a found item was deleted
    by a permitted requester, every per-item route on its id raises the 404
    error for every requester, superusers included, and a second delete
    deletes nothing. *)
Theorem deleted_item_is_gone
    current_user id media_service w item
    other_user file (item_in : ItemUpdate) other_service :
  Session.lookup (db w) id = Some item ->
  denied current_user item = false ->
  read_item other_user id
    (world_of (delete_item current_user id media_service w))
  = (inl not_found, world_of (delete_item current_user id media_service w))
  /\ add_media_to_item other_user id file other_service
       (world_of (delete_item current_user id media_service w))
     = (inl not_found, world_of (delete_item current_user id media_service w))
  /\ update_item other_user id item_in
       (world_of (delete_item current_user id media_service w))
     = (inl not_found, world_of (delete_item current_user id media_service w))
  /\ delete_item other_user id other_service
       (world_of (delete_item current_user id media_service w))
     = (inl not_found, world_of (delete_item current_user id media_service w)).
Proof.
  intros Hfound Hallowed.
  assert (Hgone : Session.lookup
                    (db (world_of (delete_item current_user id media_service w)))
                    id = None).
  { rewrite (delete_item_found current_user id media_service w item Hfound).
    rewrite Hallowed. unfold world_of. cbn [snd db].
    rewrite commit_last, (lookup_id _ _ _ Hfound). apply lookup_remove. }
  set (w' := world_of (delete_item current_user id media_service w)) in *.
  unfold read_item, add_media_to_item, update_item, delete_item, bind,
    Session.get. cbn [db].
  rewrite Hgone. repeat split; reflexivity.
Qed.

(** *** Writes read back *)

Lemma record_media_keeps item r :
  Item.id (record_media item r) = Item.id item
  /\ Item.owner_id (record_media item r) = Item.owner_id item
  /\ Item.title (record_media item r) = Item.title item
  /\ Item.description (record_media item r) = Item.description item.
Proof.
  unfold record_media.
  destruct (Py.eq_opt _ "image"); [repeat split|].
  destruct (Py.eq_opt _ "video"); repeat split.
Qed.

Lemma denied_by_owner current_user item item' :
  Item.owner_id item' = Item.owner_id item ->
  denied current_user item' = denied current_user item.
Proof. intros Hown. unfold denied. now rewrite Hown. Qed.

(** X15. Attaching media changes the media fields only and can be read
    back: the item [add_media_to_item] returns has the id, owner, title and
    description of the stored one, so the same requester still passes the
    permission check, and [read_item] on the new world returns that very
    item. *)
Theorem add_media_then_read
    current_user id file media_service w item upload_result w1 :
  Session.lookup (db w) id = Some item ->
  denied current_user item = false ->
  pending w = [] ->
  upload_file media_service file "items" w = (inr upload_result, w1) ->
  exists item' w2,
    add_media_to_item current_user id file media_service w = (inr item', w2)
    /\ read_item current_user id w2 = (inr item', w2)
    /\ Item.id item' = Item.id item
    /\ Item.owner_id item' = Item.owner_id item
    /\ Item.title item' = Item.title item
    /\ Item.description item' = Item.description item.
Proof.
  intros Hfound Hallowed Hfresh Hup.
  destruct (add_media_run current_user id file media_service w item
              upload_result w1 Hfound Hallowed Hfresh Hup) as (w2 & Hrun & Hrow).
  destruct (record_media_keeps item upload_result) as (Hid & Hown & Htitle & Hdesc).
  exists (record_media item upload_result), w2.
  split; [exact Hrun|].
  split; [|now repeat split].
  rewrite (read_item_found current_user id w2 _ Hrow).
  now rewrite (denied_by_owner current_user item _ Hown), Hallowed.
Qed.

(** X16. Two attaches in a row add up: when an image is attached to an item
    and then a video, the item returned by the second request has the
    media type "video", the video's url in [video_url] and still the
    image's url in [image_url]. *)
Theorem second_attach_keeps_first
    current_user id media_service w item
    image_file image_result w1 video_file video_result w3 :
  Session.lookup (db w) id = Some item ->
  denied current_user item = false ->
  pending w = [] ->
  upload_file media_service image_file "items" w = (inr image_result, w1) ->
  UploadResult.resource_type image_result = Some "image" ->
  upload_file media_service video_file "items"
    (world_of (add_media_to_item current_user id image_file media_service w))
  = (inr video_result, w3) ->
  UploadResult.resource_type video_result = Some "video" ->
  exists item2 w4,
    add_media_to_item current_user id video_file media_service
      (world_of (add_media_to_item current_user id image_file media_service w))
    = (inr item2, w4)
    /\ Item.media_type item2 = Some "video"
    /\ Item.video_url item2 = UploadResult.url video_result
    /\ Item.image_url item2 = UploadResult.url image_result.
Proof.
  intros Hfound Hallowed Hfresh Hup1 Himage Hup2 Hvideo.
  destruct (add_media_world_fresh current_user id image_file media_service w
              item image_result w1 Hfound Hallowed Hup1) as [Hfresh2 _].
  destruct (add_media_run current_user id image_file media_service w item
              image_result w1 Hfound Hallowed Hfresh Hup1)
    as (w2 & Hrun1 & Hrow1).
  rewrite Hrun1 in Hup2, Hfresh2 |- *. unfold world_of in *. cbn [snd] in *.
  destruct (record_media_keeps item image_result) as (_ & Hown & _).
  assert (Hallowed2 : denied current_user (record_media item image_result)
                      = false).
  { now rewrite (denied_by_owner current_user item _ Hown). }
  destruct (add_media_run current_user id video_file media_service w2
              (record_media item image_result) video_result w3
              Hrow1 Hallowed2 Hfresh2 Hup2)
    as (w4 & Hrun2 & _).
  exists (record_media (record_media item image_result) video_result), w4.
  split; [exact Hrun2|].
  rewrite (record_media_video _ video_result Hvideo).
  rewrite (record_media_image item image_result Himage).
  repeat split.
Qed.

(** X17. An update can be read back: after a permitted [update_item] that
    keeps the primary key, the table holds the updated item under the id,
    and [read_item] returns it to every requester the updated item lets
    through. *)
Theorem update_then_read
    current_user id (item_in : ItemUpdate) w item reader :
  Session.lookup (db w) id = Some item ->
  denied current_user item = false ->
  pending w = [] ->
  Item.id (sqlmodel_update item item_in) = id ->
  denied reader (sqlmodel_update item item_in) = false ->
  exists w',
    update_item current_user id item_in w
    = (inr (sqlmodel_update item item_in), w')
    /\ Session.lookup (db w') id = Some (sqlmodel_update item item_in)
    /\ read_item reader id w' = (inr (sqlmodel_update item item_in), w').
Proof.
  intros Hfound Hallowed Hfresh Hkey Hreader.
  rewrite (update_item_found current_user id item_in w item Hfound).
  rewrite Hallowed, Hfresh. cbv zeta. cbn [app fold_left db].
  rewrite Hkey.
  pose proof (lookup_update (db w) id item (sqlmodel_update item item_in)
                Hfound Hkey) as Hrow.
  rewrite Hrow. eexists. split; [reflexivity|].
  cbn [db]. split; [exact Hrow|].
  erewrite read_item_found by (cbn [db]; exact Hrow).
  now rewrite Hreader.
Qed.

End Program.

(* ================================================================= *)
(** ** The properties on concrete requests *)

(** Running a handler on concrete data. *)
Ltac run := lazy; reflexivity.

(** Alice adds a JPEG to her item 10 through the local backend. *)
Lemma add_media_records_result_witness :
  exists upload_result w1,
    upload_file Sample.magic Sample.suffix Sample.uuid4 Sample.cloudinary_raw
      Sample.no_fault Sample.local_service Sample.jpeg_file "items" Sample.world
    = (inr upload_result, w1)
    /\ UploadResult.resource_type upload_result = Some "image"
    /\ exists item' w2,
         add_media_to_item Sample.magic Sample.suffix Sample.uuid4
           Sample.cloudinary_raw Sample.no_fault Sample.alice 10%N
           Sample.jpeg_file Sample.local_service Sample.world
         = (inr item', w2)
         /\ Item.media_type item' = Some "image"
         /\ Item.image_url item' = UploadResult.url upload_result
         /\ Item.video_url item' = Item.video_url Sample.clip.
Proof.
  eexists. eexists. split; [run|]. split; [run|].
  destruct (add_media_records_result Sample.magic Sample.suffix Sample.uuid4
              Sample.cloudinary_raw Sample.no_fault Sample.alice 10%N
              Sample.jpeg_file Sample.local_service Sample.world Sample.clip
              _ _ eq_refl eq_refl eq_refl eq_refl)
    as (item' & w2 & Hrun & _ & Himage & _).
  exists item', w2. split; [exact Hrun|]. exact (Himage eq_refl).
Defined.

(** The same request shows what C1 as stated misses: the item carried a
    video, the upload is an image, and the returned item has both the new
    [image_url] and the old [video_url]. *)
Lemma image_upload_keeps_video_url :
  exists upload_result w1 item' w2,
    upload_file Sample.magic Sample.suffix Sample.uuid4 Sample.cloudinary_raw
      Sample.no_fault Sample.local_service Sample.jpeg_file "items" Sample.world
    = (inr upload_result, w1)
    /\ UploadResult.resource_type upload_result = Some "image"
    /\ add_media_to_item Sample.magic Sample.suffix Sample.uuid4
         Sample.cloudinary_raw Sample.no_fault Sample.alice 10%N
         Sample.jpeg_file Sample.local_service Sample.world
       = (inr item', w2)
    /\ Item.media_type item' = Some "image"
    /\ Item.image_url item' = UploadResult.url upload_result
    /\ Item.video_url item' = Some "/uploads/items/old.mp4"
    /\ Item.video_url item' <> None.
Proof.
  do 4 eexists.
  split; [run|]. split; [run|]. split; [run|].
  split; [run|]. split; [run|]. split; [run|].
  discriminate.
Qed.

(** Alice adds a JPEG to her item 10 and the host reports a raw file. *)
Lemma add_media_other_type_keeps_item_witness :
  exists upload_result w1,
    upload_file Sample.magic Sample.suffix Sample.uuid4 Sample.cloudinary_raw
      Sample.no_fault Sample.cloud_service Sample.jpeg_file "items" Sample.world
    = (inr upload_result, w1)
    /\ UploadResult.resource_type upload_result = Some "raw"
    /\ exists w2,
         add_media_to_item Sample.magic Sample.suffix Sample.uuid4
           Sample.cloudinary_raw Sample.no_fault Sample.alice 10%N
           Sample.jpeg_file Sample.cloud_service Sample.world
         = (inr Sample.clip, w2)
         /\ Session.lookup (db w2) 10%N = Some Sample.clip.
Proof.
  eexists. eexists. split; [run|]. split; [run|].
  apply (add_media_other_type_keeps_item Sample.magic Sample.suffix
           Sample.uuid4 Sample.cloudinary_raw Sample.no_fault Sample.alice 10%N
           Sample.jpeg_file Sample.cloud_service Sample.world Sample.clip
           _ _ eq_refl eq_refl eq_refl eq_refl);
    discriminate.
Defined.

(** That request shows what C4 as stated misses: the result's type is
    neither image nor video, and the request returns the item instead of
    raising. *)
Lemma raw_upload_is_not_refused :
  exists upload_result w1 w2,
    upload_file Sample.magic Sample.suffix Sample.uuid4 Sample.cloudinary_raw
      Sample.no_fault Sample.cloud_service Sample.jpeg_file "items" Sample.world
    = (inr upload_result, w1)
    /\ UploadResult.resource_type upload_result = Some "raw"
    /\ add_media_to_item Sample.magic Sample.suffix Sample.uuid4
         Sample.cloudinary_raw Sample.no_fault Sample.alice 10%N
         Sample.jpeg_file Sample.cloud_service Sample.world
       = (inr Sample.clip, w2).
Proof.
  do 3 eexists.
  split; [run|]. split; run.
Qed.

(** Two failed uploads onto Alice's item 10: text under a picture's name,
    refused by validation, and a JPEG sent to an unreachable host. *)
Lemma failed_upload_writes_nothing_witness :
  (outcome (upload_file Sample.magic Sample.suffix Sample.uuid4
              Sample.cloudinary_down Sample.no_fault Sample.cloud_service
              Sample.renamed_text "items" Sample.world)
   = inl (unsupported_error "text/plain")
   /\ outcome (add_media_to_item Sample.magic Sample.suffix Sample.uuid4
                 Sample.cloudinary_down Sample.no_fault Sample.alice 10%N
                 Sample.renamed_text Sample.cloud_service Sample.world)
      = inl (unsupported_error "text/plain")
   /\ db (world_of (add_media_to_item Sample.magic Sample.suffix Sample.uuid4
                      Sample.cloudinary_down Sample.no_fault Sample.alice 10%N
                      Sample.renamed_text Sample.cloud_service Sample.world))
      = db Sample.world)
  /\ (outcome (upload_file Sample.magic Sample.suffix Sample.uuid4
                 Sample.cloudinary_down Sample.no_fault Sample.cloud_service
                 Sample.jpeg_file "items" Sample.world)
      = inl (HTTPException.mk 500 "Cloudinary upload failed: connection refused")
      /\ outcome (add_media_to_item Sample.magic Sample.suffix Sample.uuid4
                    Sample.cloudinary_down Sample.no_fault Sample.alice 10%N
                    Sample.jpeg_file Sample.cloud_service Sample.world)
         = inl (HTTPException.mk 500
                  "Cloudinary upload failed: connection refused")
      /\ db (world_of (add_media_to_item Sample.magic Sample.suffix Sample.uuid4
                         Sample.cloudinary_down Sample.no_fault Sample.alice
                         10%N Sample.jpeg_file Sample.cloud_service
                         Sample.world))
         = db Sample.world).
Proof.
  split.
  - split; [reflexivity|].
    destruct (failed_upload_writes_nothing Sample.magic Sample.suffix
                Sample.uuid4 Sample.cloudinary_down Sample.no_fault
                Sample.alice 10%N Sample.renamed_text Sample.cloud_service
                Sample.world (unsupported_error "text/plain") eq_refl)
      as (_ & Hdb & _ & Hsame).
    split; [exact (Hsame Sample.clip eq_refl eq_refl)|exact Hdb].
  - split; [reflexivity|].
    destruct (failed_upload_writes_nothing Sample.magic Sample.suffix
                Sample.uuid4 Sample.cloudinary_down Sample.no_fault
                Sample.alice 10%N Sample.jpeg_file Sample.cloud_service
                Sample.world
                (HTTPException.mk 500
                   "Cloudinary upload failed: connection refused") eq_refl)
      as (_ & Hdb & _ & Hsame).
    split; [exact (Hsame Sample.clip eq_refl eq_refl)|exact Hdb].
Defined.

(** Item 11 is Bob's: Alice is refused, Bob and the superuser are served,
    and Bob's retitling is returned. *)
Lemma per_item_access_witness :
  Session.lookup (db Sample.world) 11%N = Some Sample.note
  /\ read_item Sample.alice 11%N Sample.world
     = (inl not_enough_permissions, Sample.world)
  /\ delete_item Sample.alice 11%N Sample.local_service Sample.world
     = (inl not_enough_permissions, Sample.world)
  /\ outcome (read_item Sample.root 11%N Sample.world) = inr Sample.note
  /\ outcome (update_item string Sample.set_title Sample.bob 11%N "memo"
                Sample.world)
     = inr (Sample.set_title Sample.note "memo").
Proof.
  split; [reflexivity|].
  destruct (per_item_access string Sample.set_title Sample.alice 11%N "memo"
              Sample.local_service Sample.world Sample.note eq_refl)
    as (_ & _ & _ & Hrefused & _).
  destruct Hrefused as (Hread & _ & Hdelete).
  { intros [Hroot|Hown]; discriminate. }
  split; [exact Hread|]. split; [exact Hdelete|].
  destruct (per_item_access string Sample.set_title Sample.root 11%N "memo"
              Sample.local_service Sample.world Sample.note eq_refl)
    as (Hread' & _).
  split; [apply Hread'; left; reflexivity|].
  destruct (per_item_access string Sample.set_title Sample.bob 11%N "memo"
              Sample.local_service Sample.world Sample.note eq_refl)
    as (_ & _ & _ & _ & Hupdate).
  apply Hupdate; [right|idtac|idtac]; reflexivity.
Defined.

(** Alice deletes her item 12, whose image sits on the remote host. *)
Lemma delete_item_never_blocked_witness :
  Session.lookup (db Sample.world) 12%N = Some Sample.photo
  /\ hosted_on_cloudinary (Item.image_url Sample.photo) = true
  /\ exists w',
       delete_item Sample.alice 12%N Sample.cloud_service Sample.world
       = (inr "Item deleted successfully", w')
       /\ Session.lookup (db w') 12%N = None
       /\ outcome (delete_file Sample.destroy_down Sample.no_fault
                     Sample.cloud_service "items/p" w')
          = inr false.
Proof.
  split; [reflexivity|]. split; [reflexivity|].
  destruct (delete_item_never_blocked Sample.destroy_down Sample.no_fault
              Sample.alice 12%N Sample.cloud_service Sample.world Sample.photo
              eq_refl eq_refl)
    as (w' & Hrun & Hgone & _).
  exists w'. split; [exact Hrun|]. split; [exact Hgone|]. reflexivity.
Defined.

(** Alice lists the first hundred items; the superuser lists the second one
    only. *)
Lemma read_items_scoped_witness :
  (exists data,
     read_items Sample.alice 0 100 Sample.world
     = (inr (ItemsPublic.mk data 2), Sample.world)
     /\ data = [Sample.clip; Sample.photo])
  /\ (exists data,
        read_items Sample.root 1 1 Sample.world
        = (inr (ItemsPublic.mk data 3), Sample.world)
        /\ data = [Sample.note]).
Proof.
  split.
  - destruct (read_items_scoped Sample.alice 0 100 Sample.world)
      as (data & Hrun & Hpage & _).
    + apply Z.le_refl.
    + discriminate.
    + exists data. split; [exact Hrun|]. rewrite Hpage. reflexivity.
  - destruct (read_items_scoped Sample.root 1 1 Sample.world)
      as (data & Hrun & Hpage & _).
    + discriminate.
    + discriminate.
    + exists data. split; [exact Hrun|]. rewrite Hpage. reflexivity.
Defined.

(** A 15 MiB text file and a 5 MiB JPEG against the default limit. *)
Lemma size_check_limit_witness :
  UploadFile.size Sample.long_text = Some (15 * 1024 * 1024)
  /\ _validate_file Sample.magic Sample.long_text 10
     = inl (HTTPException.mk 413 "File too large. Maximum size is 10MB")
  /\ UploadFile.size Sample.large_jpeg = Some (5 * 1024 * 1024)
  /\ _validate_file Sample.magic Sample.large_jpeg 10
     = inr (UploadFile.seek 0 Sample.large_jpeg).
Proof.
  split; [reflexivity|].
  destruct (size_check_limit Sample.magic Sample.long_text (15 * 1024 * 1024)
              10 eq_refl)
    as (_ & _ & Hbig & _).
  { discriminate. }
  split; [exact (Hbig eq_refl eq_refl)|].
  split; [reflexivity|].
  destruct (size_check_limit Sample.magic Sample.large_jpeg (5 * 1024 * 1024)
              10 eq_refl)
    as (_ & _ & _ & Hsmall).
  { discriminate. }
  destruct (Hsmall eq_refl eq_refl) as (_ & Hjpeg).
  apply Hjpeg. run.
Defined.

(** Plain text sent as [photo.jpg] with a picture's declared type. *)
Lemma type_check_by_content_witness :
  too_large Sample.renamed_text (10 * 1024 * 1024) = false
  /\ UploadFile.filename Sample.renamed_text = Some "photo.jpg"
  /\ Sample.magic (leading_bytes Sample.renamed_text) = "text/plain"
  /\ fails_with 400 (_validate_file Sample.magic Sample.renamed_text 10)
  /\ _validate_file Sample.magic Sample.renamed_text 10
     = inl (unsupported_error "text/plain").
Proof.
  split; [reflexivity|]. split; [reflexivity|]. split; [reflexivity|].
  destruct (type_check_by_content Sample.magic Sample.renamed_text 10 eq_refl)
    as (_ & Hiff & Hout & _).
  split; [apply Hiff; reflexivity|apply Hout; reflexivity].
Defined.

(** What C7 as stated misses: the 15 MiB text file is sniffed as plain
    text, outside the allowed types, and is refused with the 413 error of the
    size check, not with the 400 error of the type check. *)
Lemma oversized_text_fails_on_size :
  Py.mem (Sample.magic (leading_bytes Sample.long_text))
         (allowed_image_types ++ allowed_video_types)%list = false
  /\ _validate_file Sample.magic Sample.long_text 10
     = inl (HTTPException.mk 413 "File too large. Maximum size is 10MB")
  /\ (fails_with 400 (_validate_file Sample.magic Sample.long_text 10) -> False).
Proof.
  split; [run|]. split; [run|]. lazy. discriminate.
Qed.

(** A JPEG that declares no size, against a limit of zero. *)
Lemma unsized_file_skips_size_check_witness :
  UploadFile.size Sample.unsized_jpeg = None
  /\ (fails_with 413 (_validate_file Sample.magic Sample.unsized_jpeg 0) -> False)
  /\ _validate_file Sample.magic Sample.unsized_jpeg 0
     = inr Sample.unsized_jpeg.
Proof.
  split; [reflexivity|].
  destruct (unsized_file_skips_size_check Sample.magic Sample.unsized_jpeg 0)
    as (Hskip & _).
  split; [exact (Hskip (or_introl eq_refl))|reflexivity].
Defined.

(* ================================================================= *)
(** ** The further properties on concrete requests *)

(** No item has the id 99. *)
Lemma missing_item_is_not_found_witness :
  Session.lookup (db Sample.world) 99%N = None
  /\ read_item Sample.root 99%N Sample.world = (inl not_found, Sample.world)
  /\ with_raw_host add_media_to_item Sample.root 99%N Sample.jpeg_file
       Sample.local_service Sample.world
     = (inl not_found, Sample.world)
  /\ delete_item Sample.root 99%N Sample.cloud_service Sample.world
     = (inl not_found, Sample.world).
Proof.
  split; [reflexivity|].
  destruct (with_raw_host missing_item_is_not_found string Sample.set_title
              Sample.root 99%N Sample.jpeg_file "memo" Sample.local_service
              Sample.world eq_refl)
    as (Hread & Hadd & _ & _).
  split; [exact Hread|]. split; [exact Hadd|].
  destruct (with_raw_host missing_item_is_not_found string Sample.set_title
              Sample.root 99%N Sample.jpeg_file "memo" Sample.cloud_service
              Sample.world eq_refl)
    as (_ & _ & _ & Hdelete).
  exact Hdelete.
Defined.

(** Bob sends a JPEG for Alice's item 10. *)
Lemma add_media_gate_witness :
  Session.lookup (db Sample.world) 10%N = Some Sample.clip
  /\ with_raw_host add_media_to_item Sample.bob 10%N Sample.jpeg_file
       Sample.local_service Sample.world
     = (inl not_enough_permissions, Sample.world).
Proof.
  split; [reflexivity|].
  destruct (with_raw_host add_media_gate Sample.bob 10%N Sample.jpeg_file
              Sample.local_service Sample.world Sample.clip eq_refl)
    as (_ & Hrefused).
  apply Hrefused. intros [Hroot|Hown]; discriminate.
Defined.

(** Text under a picture's name, sent by Alice for her item 10. *)
Lemma rejected_file_reaches_no_backend_witness :
  _validate_file Sample.magic Sample.renamed_text 10
  = inl (unsupported_error "text/plain")
  /\ with_raw_host upload_media Sample.renamed_text Sample.local_service
       Sample.world
     = (inl (unsupported_error "text/plain"), Sample.world)
  /\ world_of (with_raw_host add_media_to_item Sample.alice 10%N
                 Sample.renamed_text Sample.local_service Sample.world)
     = Sample.world.
Proof.
  split; [reflexivity|].
  destruct (with_raw_host rejected_file_reaches_no_backend Sample.alice 10%N
              Sample.renamed_text "items" Sample.local_service Sample.world
              (unsupported_error "text/plain") eq_refl)
    as (_ & Hmedia & Hworld & _).
  split; [exact Hmedia|exact Hworld].
Defined.

(** A JPEG behind two bytes that were already read: the host gets all
    eight bytes. *)
Lemma cloud_upload_forwards_stream_witness :
  UploadFile.pos Sample.offset_jpeg = 2%nat
  /\ verdict (_validate_file Sample.magic Sample.offset_jpeg 10) = None
  /\ exists result w',
       with_image_host upload_file Sample.cloud_service Sample.offset_jpeg
         "items" Sample.world
       = (inr result, w')
       /\ UploadResult.bytes result = Some 8
       /\ UploadResult.public_id result = Some "items/a2"
       /\ disk w' = disk Sample.world.
Proof.
  split; [reflexivity|]. split; [reflexivity|].
  do 2 eexists.
  rewrite (with_image_host cloud_upload_forwards_stream Sample.cloud_service
             Sample.offset_jpeg "items" Sample.world eq_refl eq_refl).
  split; [reflexivity|]. repeat split.
Defined.

(** Alice's JPEG on the local backend. *)
Lemma local_upload_round_trip_witness :
  __init__ Sample.partial_settings = Sample.local_service
  /\ exists result w',
       with_raw_host upload_file Sample.local_service Sample.jpeg_file "items"
         Sample.world
       = (inr result, w')
       /\ UploadResult.public_id result
          = Some "uploads/items/6f1c2d3e-0000-4000-8000-00000000000a.jpg"
       /\ UploadResult.bytes result = Some 6
       /\ disk_read (disk w')
            "uploads/items/6f1c2d3e-0000-4000-8000-00000000000a.jpg"
          = Some Sample.jpeg_bytes.
Proof.
  split; [reflexivity|].
  destruct (with_raw_host local_upload_round_trip Sample.local_service
              Sample.jpeg_file Sample.world
              eq_refl eq_refl eq_refl (fun _ => eq_refl))
    as (result & w' & Hrun & Hpath & _ & _ & _ & Hbytes & Hread & _).
  exists result, w'.
  split; [exact Hrun|]. split; [exact Hpath|].
  split; [exact Hbytes|exact Hread].
Defined.

(** JPEG bytes declared as [video/mp4] are stored as a video. *)
Lemma local_resource_type_is_declared_witness :
  exists result w',
    with_raw_host upload_file Sample.local_service Sample.mislabeled_jpeg
      "items" Sample.world
    = (inr result, w')
    /\ Sample.magic (leading_bytes Sample.mislabeled_jpeg) = "image/jpeg"
    /\ UploadResult.resource_type result = Some "video".
Proof.
  do 2 eexists. split; [run|]. split; [reflexivity|].
  exact (proj1 (with_raw_host local_resource_type_is_declared
                  Sample.local_service Sample.mislabeled_jpeg "items"
                  Sample.world _ _ eq_refl eq_refl)).
Defined.

(** A JPEG without a name on the local backend. *)
Lemma nameless_upload_is_unknown_witness :
  exists result w',
    with_raw_host upload_file Sample.local_service Sample.nameless_jpeg
      "items" Sample.world
    = (inr result, w')
    /\ UploadResult.format result = Some "unknown"
    /\ UploadResult.url result
       = Some "/uploads/items/6f1c2d3e-0000-4000-8000-00000000000a".
Proof.
  do 2 eexists. split; [run|].
  exact (with_raw_host nameless_upload_is_unknown Sample.local_service
           Sample.nameless_jpeg "items" Sample.world _ _
           eq_refl eq_refl eq_refl).
Defined.

(** Alice's JPEG is stored locally and then deleted, twice. *)
Lemma local_delete_after_upload_witness :
  exists result w1 path,
    with_raw_host upload_file Sample.local_service Sample.jpeg_file "items"
      Sample.world
    = (inr result, w1)
    /\ UploadResult.public_id result = Some path
    /\ exists w2,
         delete_file Sample.destroy_down Sample.no_fault Sample.local_service
           path w1
         = (inr true, w2)
         /\ disk_read (disk w2) path = None
         /\ outcome (delete_file Sample.destroy_down Sample.no_fault
                       Sample.local_service path w2)
            = inr false.
Proof.
  do 3 eexists. split; [run|]. split; [run|].
  exact (local_delete_after_upload Sample.magic Sample.suffix Sample.uuid4
           Sample.cloudinary_raw Sample.destroy_down Sample.no_fault
           Sample.local_service Sample.jpeg_file "items" Sample.world _ _ _
           eq_refl eq_refl eq_refl (fun _ => eq_refl)).
Defined.


(** All three settings given, and the secret left empty. *)
Lemma init_selects_backend_witness :
  MediaService.use_cloudinary (__init__ Sample.cloud_settings) = true
  /\ __init__ Sample.partial_settings = Sample.local_service.
Proof.
  split.
  - apply (init_selects_backend Sample.cloud_settings).
    repeat split; eexists; (split; [reflexivity|discriminate]).
  - reflexivity.
Defined.

(** The superuser asks for ten rows from the third on, and from the fourth
    on: one row, then none, out of three. *)
Lemma read_items_page_size_witness :
  (exists data,
     read_items Sample.root 2 10 Sample.world
     = (inr (ItemsPublic.mk data 3), Sample.world)
     /\ Z.of_nat (List.length data) = 1)
  /\ read_items Sample.root 3 10 Sample.world
     = (inr (ItemsPublic.mk [] 3), Sample.world).
Proof.
  split.
  - destruct (read_items_page_size Sample.root 2 10 Sample.world)
      as (data & count & Hrun & Hsize & _); [discriminate|discriminate|].
    exists data.
    assert (Hcount : count = 3).
    { lazy in Hrun. now injection Hrun as _ <-. }
    subst count. split; [exact Hrun|exact Hsize].
  - destruct (read_items_page_size Sample.root 3 10 Sample.world)
      as (data & count & Hrun & _ & Hempty & _); [discriminate|discriminate|].
    assert (Hcount : count = 3).
    { lazy in Hrun. now injection Hrun as _ <-. }
    subst count. rewrite (Hempty (Z.le_refl 3)) in Hrun. exact Hrun.
Defined.

(** Alice lists her items and reads the second of them. *)
Lemma listed_items_are_readable_witness :
  read_items Sample.alice 0 100 Sample.world
  = (inr (ItemsPublic.mk [Sample.clip; Sample.photo] 2), Sample.world)
  /\ In Sample.photo [Sample.clip; Sample.photo]
  /\ read_item Sample.alice 12%N Sample.world = (inr Sample.photo, Sample.world).
Proof.
  split; [reflexivity|]. split; [right; left; reflexivity|].
  destruct (listed_items_are_readable Sample.alice 0 100 Sample.world
              (ItemsPublic.mk [Sample.clip; Sample.photo] 2) Sample.world
              Sample.photo eq_refl (or_intror (or_introl eq_refl)))
    as (_ & _ & Hread).
  apply Hread. cbn.
  repeat constructor; cbn; intuition discriminate.
Defined.

(** Alice deletes her item 12, retitles her item 10 and adds a JPEG to it:
    Bob's item 11 stays as it is. *)
Lemma writes_touch_one_id_witness :
  Session.lookup
    (db (world_of (delete_item Sample.alice 12%N Sample.cloud_service
                     Sample.world))) 11%N
  = Some Sample.note
  /\ Session.lookup
       (db (world_of (update_item string Sample.set_title Sample.alice 10%N
                        "memo" Sample.world))) 11%N
     = Some Sample.note
  /\ Session.lookup
       (db (world_of (with_raw_host add_media_to_item Sample.alice 10%N
                        Sample.jpeg_file Sample.local_service Sample.world)))
       11%N
     = Some Sample.note.
Proof.
  assert (Hkeeps : forall item,
             Item.id (Sample.set_title item "memo") = Item.id item)
    by (intros item; reflexivity).
  destruct (with_raw_host writes_touch_one_id string Sample.set_title
              Sample.alice 12%N Sample.jpeg_file "memo" Sample.cloud_service
              Sample.world 11%N eq_refl)
    as (_ & _ & Hdelete); [discriminate|exact Hkeeps|].
  destruct (with_raw_host writes_touch_one_id string Sample.set_title
              Sample.alice 10%N Sample.jpeg_file "memo" Sample.local_service
              Sample.world 11%N eq_refl)
    as (Hadd & Hupdate & _); [discriminate|exact Hkeeps|].
  split; [exact Hdelete|]. split; [exact Hupdate|exact Hadd].
Defined.

(** Alice deletes her item 12; the superuser then asks for it. *)
Lemma deleted_item_is_gone_witness :
  Session.lookup (db Sample.world) 12%N = Some Sample.photo
  /\ outcome (read_item Sample.root 12%N
                (world_of (delete_item Sample.alice 12%N Sample.cloud_service
                             Sample.world)))
     = inl not_found
  /\ outcome (delete_item Sample.alice 12%N Sample.cloud_service
                (world_of (delete_item Sample.alice 12%N Sample.cloud_service
                             Sample.world)))
     = inl not_found.
Proof.
  split; [reflexivity|].
  destruct (with_raw_host deleted_item_is_gone string Sample.set_title
              Sample.alice 12%N Sample.cloud_service Sample.world Sample.photo
              Sample.root Sample.jpeg_file "memo" Sample.cloud_service
              eq_refl eq_refl)
    as (Hread & _).
  destruct (with_raw_host deleted_item_is_gone string Sample.set_title
              Sample.alice 12%N Sample.cloud_service Sample.world Sample.photo
              Sample.alice Sample.jpeg_file "memo" Sample.cloud_service
              eq_refl eq_refl)
    as (_ & _ & _ & Hdelete).
  split; [now rewrite Hread|now rewrite Hdelete].
Defined.

(** Alice adds a JPEG to her item 10 and reads the item back. *)
Lemma add_media_then_read_witness :
  exists item' w2,
    with_raw_host add_media_to_item Sample.alice 10%N Sample.jpeg_file
      Sample.local_service Sample.world
    = (inr item', w2)
    /\ read_item Sample.alice 10%N w2 = (inr item', w2)
    /\ Item.id item' = Item.id Sample.clip
    /\ Item.owner_id item' = Item.owner_id Sample.clip
    /\ Item.title item' = Item.title Sample.clip
    /\ Item.description item' = Item.description Sample.clip.
Proof.
  exact (with_raw_host add_media_then_read Sample.alice 10%N Sample.jpeg_file
           Sample.local_service Sample.world Sample.clip _ _
           eq_refl eq_refl eq_refl eq_refl).
Defined.

(** Bob adds a JPEG to his empty item 11 and then a file declared as a
    video. *)
Lemma second_attach_keeps_first_witness :
  exists image_result w1 video_result w3,
    with_raw_host upload_file Sample.local_service Sample.jpeg_file "items"
      Sample.world
    = (inr image_result, w1)
    /\ UploadResult.resource_type image_result = Some "image"
    /\ with_raw_host upload_file Sample.local_service Sample.mislabeled_jpeg
         "items"
         (world_of (with_raw_host add_media_to_item Sample.bob 11%N
                      Sample.jpeg_file Sample.local_service Sample.world))
       = (inr video_result, w3)
    /\ UploadResult.resource_type video_result = Some "video"
    /\ exists item2 w4,
         with_raw_host add_media_to_item Sample.bob 11%N
           Sample.mislabeled_jpeg Sample.local_service
           (world_of (with_raw_host add_media_to_item Sample.bob 11%N
                        Sample.jpeg_file Sample.local_service Sample.world))
         = (inr item2, w4)
         /\ Item.media_type item2 = Some "video"
         /\ Item.video_url item2 = UploadResult.url video_result
         /\ Item.image_url item2 = UploadResult.url image_result.
Proof.
  do 4 eexists.
  split; [run|]. split; [run|]. split; [run|]. split; [run|].
  eapply (with_raw_host second_attach_keeps_first Sample.bob 11%N
            Sample.local_service Sample.world Sample.note);
    run.
Defined.

(** Bob retitles his item 11 and the superuser reads it. *)
Lemma update_then_read_witness :
  Session.lookup (db Sample.world) 11%N = Some Sample.note
  /\ exists w',
       update_item string Sample.set_title Sample.bob 11%N "memo" Sample.world
       = (inr (Sample.set_title Sample.note "memo"), w')
       /\ Session.lookup (db w') 11%N = Some (Sample.set_title Sample.note "memo")
       /\ read_item Sample.root 11%N w'
          = (inr (Sample.set_title Sample.note "memo"), w').
Proof.
  split; [reflexivity|].
  apply (update_then_read string Sample.set_title Sample.bob 11%N "memo"
           Sample.world Sample.note Sample.root);
    reflexivity.
Defined.

(** With no item in the table, Alice and Bob upload the same JPEG through
    the local backend and get the same answer: the file is stored. *)
Lemma upload_media_ignores_requester_witness :
  with_raw_host router string Sample.set_title Sample.alice
    Sample.local_service (PostUploadMedia string Sample.jpeg_file)
    Sample.empty_world
  = with_raw_host router string Sample.set_title Sample.bob
      Sample.local_service (PostUploadMedia string Sample.jpeg_file)
      Sample.empty_world
  /\ exists result w',
       with_raw_host upload_media Sample.jpeg_file Sample.local_service
         Sample.empty_world
       = (inr result, w')
       /\ UploadResult.public_id result
          = Some "uploads/items/6f1c2d3e-0000-4000-8000-00000000000a.jpg"
       /\ disk_read (disk w')
            "uploads/items/6f1c2d3e-0000-4000-8000-00000000000a.jpg"
          = Some Sample.jpeg_bytes.
Proof.
  destruct (with_raw_host upload_media_ignores_requester string
              Sample.set_title Sample.jpeg_file Sample.local_service
              Sample.empty_world)
    as (Hany & _ & _ & _ & Hlocal & _).
  split; [exact (Hany Sample.alice Sample.bob)|].
  destruct (Hlocal eq_refl eq_refl eq_refl (fun _ => eq_refl))
    as (result & w' & Hrun & Hpath & _ & _ & Hread).
  exists result, w'. split; [exact Hrun|]. split; [exact Hpath|exact Hread].
Defined.
